(** * A shallow embedding of the [KeyStore] ledger of [bot.py]

    The in-memory state of [KeyStore] is a pool ([self._pool : List[str]]),
    a claim map ([self._claims : Dict[str, str]], from [str(user_id)] to a
    key) and a configuration dict.  Persistence ([_save_pool],
    [_save_claims]) writes the current state out and does not change it, so
    it is not modelled.  Every mutating method runs its body under
    [self._lock] without any [await] inside, so each call is modelled as one
    atomic state transition [state -> state * result]. *)

From Stdlib Require Import String Ascii List Bool ZArith Lia Permutation.
Import ListNotations.
Open Scope string_scope.

(** ** Python helpers *)

(** [str.isspace] restricted to one-byte characters:
    \t \n \x0b \x0c \r, \x1c..\x1f, space, \x85 and \xa0. *)
Definition is_space (c : ascii) : bool :=
  let n := nat_of_ascii c in
  ((9 <=? n) && (n <=? 13))%nat || ((28 <=? n) && (n <=? 32))%nat
  || (n =? 133)%nat || (n =? 160)%nat.

Fixpoint drop_spaces (l : list ascii) : list ascii :=
  match l with
  | [] => []
  | c :: t => if is_space c then drop_spaces t else l
  end.

(** [str.strip()]. *)
Definition strip (s : string) : string :=
  string_of_list_ascii
    (rev (drop_spaces (rev (drop_spaces (list_ascii_of_string s))))).

(** [x in lst] for a list of strings. *)
Definition mem (x : string) (l : list string) : bool :=
  existsb (String.eqb x) l.

(** [lst.remove(x)] with the [ValueError] caught: removes the first
    occurrence, and leaves the list as it is when [x] is absent. *)
Fixpoint remove_first (x : string) (l : list string) : list string :=
  match l with
  | [] => []
  | y :: t => if String.eqb x y then t else y :: remove_first x t
  end.

(** ** Python dicts from [str] to [str]

    A dict is its list of items in insertion order. *)
Definition dict := list (string * string).

Definition keys (d : dict) : list string := map fst d.
Definition values (d : dict) : list string := map snd d.

(** [k in d] *)
Definition dict_mem (k : string) (d : dict) : bool := mem k (keys d).

(** [d.get(k)] *)
Fixpoint dict_get (k : string) (d : dict) : option string :=
  match d with
  | [] => None
  | (k', v) :: t => if String.eqb k k' then Some v else dict_get k t
  end.

(** [d[k] = v]: an existing key keeps its position, a new key goes last. *)
Fixpoint dict_set (k v : string) (d : dict) : dict :=
  match d with
  | [] => [(k, v)]
  | (k', v') :: t =>
      if String.eqb k k' then (k, v) :: t else (k', v') :: dict_set k v t
  end.

(** [d.pop(k, None)]: the value (if any) and the dict without the entry. *)
Fixpoint dict_pop (k : string) (d : dict) : option string * dict :=
  match d with
  | [] => (None, [])
  | (k', v) :: t =>
      if String.eqb k k' then (Some v, t)
      else let '(r, t') := dict_pop k t in (r, (k', v) :: t')
  end.

(** ** The ledger state *)

Record config := mk_config { min_days : Z; mode : string }.

Definition DEFAULT_MIN_DAYS : Z := 7.
Definition DEFAULT_MODE : string := "account".

Record state := mk_state {
  pool : list string;
  claims : dict;
  cfg : config
}.

(** A freshly constructed [KeyStore] whose files are absent. *)
Definition empty_state : state :=
  mk_state [] [] (mk_config DEFAULT_MIN_DAYS DEFAULT_MODE).

(** Identities are modelled by [str(user_id)], the form the code uses for
    every lookup in [self._claims]. *)
Definition uid := string.

(** ** The [KeyStore] methods *)

(** [keys = [k.strip() for k in keys if k and k.strip()]] *)
Definition clean_keys (ks : list string) : list string :=
  map strip (filter (fun k => negb (String.eqb k "") && negb (String.eqb (strip k) "")) ks).

(** [add_keys] *)
Definition add_keys (s : state) (ks : list string) : state * nat :=
  let ks := clean_keys ks in
  match ks with
  | [] => (s, 0%nat)
  | _ =>
      let existing := (pool s ++ values (claims s))%list in
      let new := filter (fun k => negb (mem k existing)) ks in
      match new with
      | [] => (s, 0%nat)
      | _ => (mk_state (pool s ++ new)%list (claims s) (cfg s), length new)
      end
  end.

(** [has_claimed] *)
Definition has_claimed (s : state) (u : uid) : bool := dict_mem u (claims s).

(** [get_claim] *)
Definition get_claim (s : state) (u : uid) : option string := dict_get u (claims s).

(** [claim] *)
Definition claim (s : state) (u : uid) : state * option string :=
  if dict_mem u (claims s) then (s, None)
  else match pool s with
       | [] => (s, None)
       | key :: rest => (mk_state rest (dict_set u key (claims s)) (cfg s), Some key)
       end.

(** Python truthiness of an [Optional[str]]: [None] and [""] are false. *)
Definition truthy (o : option string) : bool :=
  match o with
  | Some k => negb (String.eqb k "")
  | None => false
  end.

(** [revoke_claim] *)
Definition revoke_claim (s : state) (u : uid) (return_to_pool : bool)
  : state * option string :=
  let '(key, claims') := dict_pop u (claims s) in
  let pool' :=
    match key with
    | Some k =>
        if truthy key && return_to_pool && negb (mem k (pool s))
        then k :: pool s else pool s
    | None => pool s
    end in
  (mk_state pool' claims' (cfg s), key).

(** [assign_key_to_user] *)
Definition assign_key_to_user (s : state) (u : uid) (key : string)
  (remove_from_pool : bool) : state * bool :=
  if dict_mem u (claims s) then (s, false)
  else
    let pool' := if remove_from_pool then remove_first key (pool s) else pool s in
    (mk_state pool' (dict_set u key (claims s)) (cfg s), true).

(** [remove_key_from_pool] *)
Definition remove_key_from_pool (s : state) (key : string) : state * bool :=
  if mem key (pool s) then
    (mk_state (filter (fun k => negb (String.eqb k key)) (pool s)) (claims s) (cfg s), true)
  else
    let removed_from_claims := existsb (fun p => String.eqb (snd p) key) (claims s) in
    (mk_state (pool s) (filter (fun p => negb (String.eqb (snd p) key)) (claims s)) (cfg s),
     removed_from_claims).

(** [available_count] and [claim_count] *)
Definition available_count (s : state) : nat := length (pool s).
Definition claim_count (s : state) : nat := length (claims s).

(** The outcome of [set_config]: it returns [None], or raises
    [ValueError] after the assignments already made. *)
Inductive set_config_outcome := ConfigOk | ConfigValueError.

(** [set_config]: [min_days] is stored first, then [mode] is checked. *)
Definition set_config (s : state) (min_days_arg : option Z) (mode_arg : option string)
  : state * set_config_outcome :=
  let c1 := match min_days_arg with
            | Some d => mk_config d (mode (cfg s))
            | None => cfg s
            end in
  let s1 := mk_state (pool s) (claims s) c1 in
  match mode_arg with
  | None => (s1, ConfigOk)
  | Some m =>
      if String.eqb m "account" || String.eqb m "guild"
      then (mk_state (pool s) (claims s) (mk_config (min_days c1) m), ConfigOk)
      else (s1, ConfigValueError)
  end.

(** ** The admin commands that guard the ledger calls *)

(** The replies of [cmd_assign]. *)
Inductive assign_reply :=
  | KeyAlreadyClaimed   (* "That key is already claimed. ..." *)
  | UnableToAssign      (* "Unable to assign. User may already have a claim." *)
  | Assigned.           (* "Assigned key ... to ..." *)

(** [cmd_assign]: the already-claimed check reads [store.list_claims()]
    before [assign_key_to_user] is called with [remove_from_pool=True]. *)
Definition cmd_assign (s : state) (u : uid) (key : string) : state * assign_reply :=
  if mem key (values (claims s)) then (s, KeyAlreadyClaimed)
  else
    let '(s', success) := assign_key_to_user s u key true in
    (s', if success then Assigned else UnableToAssign).

(** [cmd_setdays]: [true] when the days were accepted. *)
Definition cmd_setdays (s : state) (days : Z) : state * bool :=
  if (days <? 0)%Z || (3650 <? days)%Z then (s, false)
  else (fst (set_config s (Some days) None), true).

(** ** Sequences of ledger operations *)

Inductive op :=
  | OpAddKeys (ks : list string)
  | OpClaim (u : uid)
  | OpRevoke (u : uid) (return_to_pool : bool)
  | OpAssign (u : uid) (key : string) (remove_from_pool : bool)
  | OpRemoveKey (key : string)
  | OpSetConfig (min_days_arg : option Z) (mode_arg : option string).

Inductive result :=
  | RCount (n : nat)
  | RKey (k : option string)
  | RBool (b : bool)
  | RConfig (o : set_config_outcome).

Definition step (s : state) (o : op) : state * result :=
  match o with
  | OpAddKeys ks => let '(s', n) := add_keys s ks in (s', RCount n)
  | OpClaim u => let '(s', k) := claim s u in (s', RKey k)
  | OpRevoke u b => let '(s', k) := revoke_claim s u b in (s', RKey k)
  | OpAssign u k b => let '(s', r) := assign_key_to_user s u k b in (s', RBool r)
  | OpRemoveKey k => let '(s', r) := remove_key_from_pool s k in (s', RBool r)
  | OpSetConfig d m => let '(s', r) := set_config s d m in (s', RConfig r)
  end.

(** Runs the operations in order; the trace pairs each operation with
    what it returned. *)
Fixpoint run (s : state) (ops : list op) : state * list (op * result) :=
  match ops with
  | [] => (s, [])
  | o :: rest =>
      let '(s1, r) := step s o in
      let '(s2, tr) := run s1 rest in
      (s2, (o, r) :: tr)
  end.

(** The sum of the counts returned by [add_keys] in a trace. *)
Fixpoint added (tr : list (op * result)) : nat :=
  match tr with
  | [] => 0
  | (OpAddKeys _, RCount n) :: t => n + added t
  | _ :: t => added t
  end.

(** The number of [revoke_claim(..., return_to_pool=False)] calls of a
    trace that removed a claim. *)
Fixpoint purged (tr : list (op * result)) : nat :=
  match tr with
  | [] => 0
  | (OpRevoke _ false, RKey (Some _)) :: t => S (purged t)
  | _ :: t => purged t
  end.

(** ** Invariants *)

(** No duplicate in the pool, the dict's keys are distinct, no key bound
    twice, and no key both pooled and claimed. *)
Definition inv (s : state) : Prop :=
  NoDup (pool s) /\ NoDup (keys (claims s)) /\ NoDup (values (claims s)) /\
  (forall k, In k (pool s) -> ~ In k (values (claims s))).

(** The exclusivity property of the ledger. *)
Definition exclusive (s : state) : Prop :=
  (forall k, In k (pool s) -> ~ In k (values (claims s))) /\
  (forall u1 u2 k, In (u1, k) (claims s) -> In (u2, k) (claims s) -> u1 = u2).

(** The calls made the way the admin commands make them: [add_keys] with
    candidates that are distinct once trimmed, and [assign_key_to_user]
    with [remove_from_pool=True] on a key that [cmd_assign] found unclaimed. *)
Definition guarded (s : state) (o : op) : Prop :=
  match o with
  | OpAddKeys ks => NoDup (clean_keys ks)
  | OpAssign _ k b => b = true /\ ~ In k (values (claims s))
  | _ => True
  end.

Inductive reachable (s0 : state) : state -> Prop :=
  | reach_init : reachable s0 s0
  | reach_step s o : reachable s0 s -> guarded s o -> reachable s0 (fst (step s o)).

(** [add_keys], [claim] and [revoke_claim] only, with distinct trimmed
    candidates for [add_keys]. *)
Definition pool_op (o : op) : Prop :=
  match o with
  | OpAddKeys ks => NoDup (clean_keys ks)
  | OpClaim _ | OpRevoke _ _ => True
  | _ => False
  end.

(** The keys added by an [add_keys] call. *)
Definition new_keys (s : state) (ks : list string) : list string :=
  filter (fun k => negb (mem k (pool s ++ values (claims s))%list)) (clean_keys ks).

(** ** Loading the pool document *)

(** [list(dict.fromkeys(ks))]: the keys of a dict built by setting each
    element in turn; the dict's values ([None]) are never read, and are
    written here as "". *)
Definition fromkeys (ks : list string) : list string :=
  keys (fold_left (fun d k => dict_set k "" d) ks []).

(** The pool as [_load] rebuilds it from the [pool] list of [keys.json]:
    [list(dict.fromkeys([k.strip() for k in pool if k and k.strip()]))]. *)
Definition load_pool (raw : list string) : list string := fromkeys (clean_keys raw).

(** ** The remaining admin commands *)

(** [str.lower()] on one-byte code points: A-Z and U+00C0..U+00DE (but
    U+00D7) move up by 32. *)
Definition lower_char (c : ascii) : ascii :=
  let n := nat_of_ascii c in
  if ((65 <=? n) && (n <=? 90))%nat || ((192 <=? n) && (n <=? 222) && negb (n =? 215))%nat
  then ascii_of_nat (n + 32) else c.

Definition lower (s : string) : string :=
  string_of_list_ascii (map lower_char (list_ascii_of_string s)).

(** [cmd_setmode]: [true] when the mode was accepted. *)
Definition cmd_setmode (s : state) (m : string) : state * bool :=
  let m := lower m in
  if String.eqb m "account" || String.eqb m "guild"
  then (fst (set_config s None (Some m)), true)
  else (s, false).

(** The replies of [cmd_revoke]. *)
Inductive revoke_reply :=
  | RevokeNoClaim              (* "That user has no claim." *)
  | Revoked (k : string).      (* "Revoked claim from ... Key: ..." *)

(** [cmd_revoke]: the reply tests the truthiness of the revoked key. *)
Definition cmd_revoke (s : state) (u : uid) (return_to_pool : bool) : state * revoke_reply :=
  let '(s', key) := revoke_claim s u return_to_pool in
  match key with
  | Some k => if truthy key then (s', Revoked k) else (s', RevokeNoClaim)
  | None => (s', RevokeNoClaim)
  end.

(** The replies of [cmd_removekey]. *)
Inductive removekey_reply := KeyNotFound | KeyRemoved.

(** [cmd_removekey] *)
Definition cmd_removekey (s : state) (key : string) : state * removekey_reply :=
  let '(s', removed) := remove_key_from_pool s key in
  (s', if removed then KeyRemoved else KeyNotFound).

(** ** The Try button *)

(** Timestamps are [datetime]s in microseconds since the epoch; a
    [timedelta] is a number of microseconds. *)
Definition US_PER_DAY : Z := 86400 * 1000000.

(** [timedelta(days=d)] raises [OverflowError] beyond 999999999 days. *)
Definition timedelta_days (d : Z) : option Z :=
  if (Z.abs d <=? 999999999)%Z then Some (d * US_PER_DAY)%Z else None.

(** The replies of [TryView.try_button]. *)
Inductive try_reply :=
  | TryError                       (* the callback raised *)
  | NeedGuildContext               (* "This check requires a guild context." *)
  | GuildAgeNotMet (d : Z)         (* "... in this server at least d day(s)." *)
  | AccountAgeNotMet (d : Z)       (* "... account must be at least d day(s) old." *)
  | AlreadyClaimed (prev : option string)  (* "You already claimed a key. ..." *)
  | NoKeysAvailable                (* "No trial keys available." *)
  | HereIsKey (k : string).        (* "Here is your trial key: ..." *)

(** The end of [TryView.try_button], once the age check passed. *)
Definition try_claim (s : state) (u : uid) : state * try_reply :=
  if has_claimed s u then (s, AlreadyClaimed (get_claim s u))
  else
    let '(s', key) := claim s u in
    match key with
    | Some k => if truthy key then (s', HereIsKey k) else (s', NoKeysAvailable)
    | None => (s', NoKeysAvailable)
    end.

(** The age check of [TryView.try_button]: [Some reply] when the button
    answers before looking at the ledger.  The platform supplies [now],
    whether the interaction has a guild, the member's [joined_at] ([None]
    when the member lookup failed or has none) and the user's
    [created_at]. *)
Definition try_gate (c : config) (now : Z) (in_guild : bool)
  (joined_at created_at : option Z) : option try_reply :=
  let d := min_days c in
  match timedelta_days d with
  | None => Some TryError
  | Some required_delta =>
      if String.eqb (mode c) "guild" then
        if negb in_guild then Some NeedGuildContext
        else match joined_at with
             | Some j => if (now - j <? required_delta)%Z then Some (GuildAgeNotMet d) else None
             | None => Some (GuildAgeNotMet d)
             end
      else match created_at with
           | Some t => if (now - t <? required_delta)%Z then Some (AccountAgeNotMet d) else None
           | None => Some (AccountAgeNotMet d)
           end
  end.

(** [TryView.try_button] *)
Definition try_button (s : state) (u : uid) (now : Z) (in_guild : bool)
  (joined_at created_at : option Z) : state * try_reply :=
  match try_gate (cfg s) now in_guild joined_at created_at with
  | Some r => (s, r)
  | None => try_claim s u
  end.

(** A configuration the admin commands can produce. *)
Definition valid_config (c : config) : Prop :=
  (0 <= min_days c <= 3650)%Z /\ (mode c = "account" \/ mode c = "guild").

(** Every key is the strip of itself and not empty. *)
Definition stripped_keys (l : list string) : Prop :=
  Forall (fun k => strip k = k /\ k <> "") l.

(** ** Parsing the [keys] argument of [cmd_addkeys] *)

(** The one-byte line boundaries of [str.splitlines]:
    \n \x0b \x0c \r \x1c \x1d \x1e and \x85. *)
Definition is_line_boundary (c : ascii) : bool :=
  let n := nat_of_ascii c in
  ((10 <=? n) && (n <=? 13))%nat || ((28 <=? n) && (n <=? 30))%nat || (n =? 133)%nat.

(** [str.splitlines()]: [cur] holds the current line reversed; a line is
    cut at each boundary, "\r\n" counts as one boundary, and a trailing
    boundary opens no further line. *)
Fixpoint splitlines_aux (cur l : list ascii) : list (list ascii) :=
  match l with
  | [] => match cur with [] => [] | _ => [rev cur] end
  | c :: t =>
      if is_line_boundary c then
        rev cur :: match t with
                   | n :: t' =>
                       if (Ascii.eqb c "013" && Ascii.eqb n "010")%bool
                       then splitlines_aux [] t' else splitlines_aux [] t
                   | [] => splitlines_aux [] t
                   end
      else splitlines_aux (c :: cur) t
  end.

Definition splitlines (s : string) : list string :=
  map string_of_list_ascii (splitlines_aux [] (list_ascii_of_string s)).

(** [str.split(",")]: always at least one part. *)
Fixpoint split_comma_aux (cur l : list ascii) : list (list ascii) :=
  match l with
  | [] => [rev cur]
  | c :: t =>
      if Ascii.eqb c "," then rev cur :: split_comma_aux [] t
      else split_comma_aux (c :: cur) t
  end.

Definition split_comma (s : string) : list string :=
  map string_of_list_ascii (split_comma_aux [] (list_ascii_of_string s)).

(** [parts = [p.strip() for chunk in keys.splitlines() for p in chunk.split(",")]] *)
Definition parse_keys (text : string) : list string :=
  flat_map (fun chunk => map strip (split_comma chunk)) (splitlines text).

(** [cmd_addkeys]: the new state, the number added and the pool size
    it reports. *)
Definition cmd_addkeys (s : state) (text : string) : state * (nat * nat) :=
  let (s', n) := add_keys s (parse_keys text) in (s', (n, available_count s')).

(** A key that [parse_keys] reads as one part: no comma and no line
    boundary in it. *)
Definition single_part (k : string) : bool :=
  forallb (fun c => negb (is_line_boundary c || Ascii.eqb c ","))
    (list_ascii_of_string k).

(** The line breaks "\n" and "\r\n". *)
Definition LF : string := String "010" EmptyString.
Definition CRLF : string := String "013" LF.

(** ** Basic facts *)

Lemma mem_In x l : mem x l = true <-> In x l.
Proof.
  unfold mem. rewrite existsb_exists. split.
  - intros (y & Hy & E). apply String.eqb_eq in E. subst. exact Hy.
  - intros H. exists x. split; [exact H | apply String.eqb_refl].
Qed.

Lemma mem_false x l : mem x l = false <-> ~ In x l.
Proof.
  rewrite <- mem_In. destruct (mem x l); split; congruence.
Qed.

Lemma dict_set_new k v d : ~ In k (keys d) -> dict_set k v d = (d ++ [(k, v)])%list.
Proof.
  induction d as [|[k' v'] t IH]; simpl; intros H; [reflexivity|].
  destruct (String.eqb_spec k k'); [subst; tauto|].
  rewrite IH; tauto.
Qed.

Lemma dict_get_set k v d : dict_get k (dict_set k v d) = Some v.
Proof.
  induction d as [|[k' v'] t IH]; simpl.
  - rewrite String.eqb_refl. reflexivity.
  - destruct (String.eqb_spec k k'); simpl.
    + rewrite String.eqb_refl. reflexivity.
    + apply String.eqb_neq in n. rewrite n. exact IH.
Qed.

Lemma dict_mem_set k v d : dict_mem k (dict_set k v d) = true.
Proof.
  unfold dict_mem. apply mem_In.
  induction d as [|[k' v'] t IH]; simpl; [left; reflexivity|].
  destruct (String.eqb_spec k k'); simpl; [left; reflexivity | right; exact IH].
Qed.

Lemma dict_pop_spec k d :
  match dict_pop k d with
  | (None, d') => d' = d /\ ~ In k (keys d)
  | (Some v, d') => Permutation d ((k, v) :: d')
  end.
Proof.
  induction d as [|[k' v'] t IH]; simpl; [tauto|].
  destruct (String.eqb_spec k k').
  - subst. reflexivity.
  - destruct (dict_pop k t) as [[v|] t'].
    + rewrite IH. apply perm_swap.
    + destruct IH as [-> Hn]. split; [reflexivity|]. intros [E|E]; [congruence|tauto].
Qed.

Lemma add_keys_eq s ks :
  add_keys s ks =
  (mk_state (pool s ++ new_keys s ks)%list (claims s) (cfg s), length (new_keys s ks)).
Proof.
  destruct s as [p c f]. unfold add_keys, new_keys; simpl.
  destruct (clean_keys ks) as [|k0 t] eqn:E; simpl; [rewrite app_nil_r; reflexivity|].
  destruct (negb (mem k0 (p ++ values c)%list) && true)%bool eqn:E1.
  - destruct (negb (mem k0 (p ++ values c)%list)); [reflexivity | discriminate].
  - destruct (negb (mem k0 (p ++ values c)%list)); [discriminate|].
    destruct (filter (fun k => negb (mem k (p ++ values c)%list)) t); [|reflexivity].
    rewrite app_nil_r. reflexivity.
Qed.

Lemma remove_first_incl k l x : In x (remove_first k l) -> In x l.
Proof.
  induction l as [|y t IH]; simpl; [tauto|].
  destruct (String.eqb k y); simpl; intuition.
Qed.

Lemma remove_first_NoDup k l :
  NoDup l -> NoDup (remove_first k l) /\ ~ In k (remove_first k l).
Proof.
  induction l as [|y t IH]; simpl; intros H; [split; [constructor | tauto]|].
  inversion H as [|? ? Hy Ht]; subst.
  destruct (String.eqb_spec k y).
  - subst. split; assumption.
  - destruct (IH Ht) as [H1 H2]. split.
    + constructor; [|exact H1]. intros Hin. apply Hy, (remove_first_incl k t y Hin).
    + simpl. intros [E|E]; [congruence | tauto].
Qed.

Lemma NoDup_map_filter {A B} (f : A -> B) (p : A -> bool) l :
  NoDup (map f l) -> NoDup (map f (filter p l)).
Proof.
  induction l as [|x t IH]; simpl; intros H; [constructor|].
  inversion H as [|? ? Hx Ht]; subst.
  destruct (p x); simpl; [|exact (IH Ht)].
  constructor; [|exact (IH Ht)].
  intros Hin. apply Hx. apply in_map_iff in Hin as (y & Ey & Hy).
  apply filter_In in Hy as [Hy _]. rewrite <- Ey. apply in_map, Hy.
Qed.

Lemma in_map_filter {A B} (f : A -> B) (p : A -> bool) l x :
  In x (map f (filter p l)) -> In x (map f l).
Proof.
  intros Hin. apply in_map_iff in Hin as (y & Ey & Hy).
  apply filter_In in Hy as [Hy _]. rewrite <- Ey. apply in_map, Hy.
Qed.

Lemma NoDup_snd_inj (d : dict) a b v :
  NoDup (values d) -> In (a, v) d -> In (b, v) d -> a = b.
Proof.
  unfold values. induction d as [|[a' v'] t IH]; simpl; [tauto|].
  intros H Ha Hb. inversion H as [|? ? Hv Ht]; subst.
  destruct Ha as [Ea|Ea], Hb as [Eb|Eb].
  - congruence.
  - inversion Ea; subst. exfalso. apply Hv. change v with (snd (b, v)). apply in_map, Eb.
  - inversion Eb; subst. exfalso. apply Hv. change v with (snd (a, v)). apply in_map, Ea.
  - exact (IH Ht Ea Eb).
Qed.

Lemma NoDup_snoc {A} (l : list A) x : NoDup l -> ~ In x l -> NoDup (l ++ [x])%list.
Proof.
  intros H Hx. apply NoDup_app; [exact H | constructor; [tauto | constructor] |].
  intros a Ha [E|E]; [subst; tauto | tauto].
Qed.

Lemma inv_exclusive s : inv s -> exclusive s.
Proof.
  intros (_ & _ & Hv & Hd). split; [exact Hd|].
  intros u1 u2 k H1 H2. exact (NoDup_snd_inj _ _ _ _ Hv H1 H2).
Qed.

(** ** Preservation of [inv], one method at a time *)

Lemma add_keys_inv s ks :
  inv s -> NoDup (clean_keys ks) -> inv (fst (add_keys s ks)).
Proof.
  intros (Hp & Hk & Hv & Hd) Hc. rewrite add_keys_eq. unfold inv; simpl.
  assert (Hnew : forall a, In a (new_keys s ks) -> ~ In a (pool s ++ values (claims s))%list).
  { intros a Ha. unfold new_keys in Ha. apply filter_In in Ha as [_ Ha].
    apply negb_true_iff, mem_false in Ha. exact Ha. }
  split; [|split; [exact Hk | split; [exact Hv|]]].
  - apply NoDup_app; [exact Hp | apply NoDup_filter, Hc |].
    intros a Ha Hn. apply (Hnew a Hn), in_or_app. left. exact Ha.
  - intros k Hin. apply in_app_or in Hin as [Hin|Hin]; [exact (Hd k Hin)|].
    intros Hk'. apply (Hnew k Hin), in_or_app. right. exact Hk'.
Qed.

Lemma claim_inv s u : inv s -> inv (fst (claim s u)).
Proof.
  intros (Hp & Hk & Hv & Hd). destruct s as [p c f]. unfold claim; simpl in *.
  destruct (dict_mem u c) eqn:Hu; [repeat split; assumption|].
  destruct p as [|key rest]; [repeat split; assumption|].
  unfold dict_mem in Hu. apply mem_false in Hu.
  inversion Hp as [|? ? Hkey Hrest]; subst.
  unfold inv; simpl. rewrite (dict_set_new _ _ _ Hu).
  unfold keys, values in *. rewrite !map_app; simpl.
  split; [exact Hrest|split; [apply NoDup_snoc; assumption|split]].
  - apply NoDup_snoc; [exact Hv|]. apply Hd. left. reflexivity.
  - intros k Hin Hin'. apply in_app_or in Hin' as [H|[H|H]].
    + apply (Hd k); [right; exact Hin | exact H].
    + subst. tauto.
    + exact H.
Qed.

Lemma revoke_claim_inv s u b : inv s -> inv (fst (revoke_claim s u b)).
Proof.
  intros (Hp & Hk & Hv & Hd). destruct s as [p c f]. unfold revoke_claim; simpl in *.
  pose proof (dict_pop_spec u c) as Hpop.
  destruct (dict_pop u c) as [[v|] c'].
  - assert (Pk : Permutation (keys c) (u :: keys c'))
      by (apply (Permutation_map fst Hpop)).
    assert (Pv : Permutation (values c) (v :: values c'))
      by (apply (Permutation_map snd Hpop)).
    apply (Permutation_NoDup Pk) in Hk. apply (Permutation_NoDup Pv) in Hv.
    inversion Hk; subst. inversion Hv as [|? ? Hv1 Hv2]; subst.
    assert (Hsub : forall x, In x (values c') -> In x (values c)).
    { intros x Hx. apply (Permutation_in _ (Permutation_sym Pv)). right. exact Hx. }
    unfold inv; simpl.
    destruct (negb (v =? "") && b && negb (mem v p))%bool eqn:Hc.
    + apply andb_true_iff in Hc as [_ Hc]. apply negb_true_iff, mem_false in Hc.
      split; [constructor; assumption|split; [assumption|split; [assumption|]]].
      intros k [E|E]; [subst; exact Hv1|].
      intros Hk'. exact (Hd k E (Hsub k Hk')).
    + split; [assumption|split; [assumption|split; [assumption|]]].
      intros k E Hk'. exact (Hd k E (Hsub k Hk')).
  - destruct Hpop as [-> _]. repeat split; assumption.
Qed.

Lemma assign_inv s u k :
  inv s -> ~ In k (values (claims s)) -> inv (fst (assign_key_to_user s u k true)).
Proof.
  intros (Hp & Hk & Hv & Hd) Hkv. destruct s as [p c f].
  unfold assign_key_to_user; simpl in *.
  destruct (dict_mem u c) eqn:Hu; [repeat split; assumption|].
  unfold dict_mem in Hu. apply mem_false in Hu.
  destruct (remove_first_NoDup k p Hp) as [H1 H2].
  unfold inv; simpl. rewrite (dict_set_new _ _ _ Hu).
  unfold keys, values in *. rewrite !map_app; simpl.
  split; [exact H1|split; [apply NoDup_snoc; assumption|split]].
  - apply NoDup_snoc; assumption.
  - intros x Hin Hin'. apply in_app_or in Hin' as [H|[H|H]].
    + exact (Hd x (remove_first_incl _ _ _ Hin) H).
    + subst. tauto.
    + exact H.
Qed.

Lemma remove_key_inv s k : inv s -> inv (fst (remove_key_from_pool s k)).
Proof.
  intros (Hp & Hk & Hv & Hd). destruct s as [p c f].
  unfold remove_key_from_pool; simpl in *.
  destruct (mem k p); unfold inv; simpl.
  - split; [apply NoDup_filter, Hp|split; [exact Hk|split; [exact Hv|]]].
    intros x Hx. apply filter_In in Hx as [Hx _]. exact (Hd x Hx).
  - split; [exact Hp|split; [apply NoDup_map_filter, Hk|split; [apply NoDup_map_filter, Hv|]]].
    intros x Hx Hx'. exact (Hd x Hx (in_map_filter _ _ _ _ Hx')).
Qed.

Lemma set_config_inv s d m : inv s -> inv (fst (set_config s d m)).
Proof.
  intros H. destruct s as [p c f]. unfold set_config; simpl.
  destruct m as [m|]; [destruct (String.eqb m "account" || String.eqb m "guild")|];
    exact H.
Qed.

Lemma step_inv s o : inv s -> guarded s o -> inv (fst (step s o)).
Proof.
  intros H G. destruct o; simpl in G; unfold step.
  - destruct (add_keys s ks) eqn:E. pose proof (add_keys_inv s ks H G). rewrite E in *. exact H0.
  - pose proof (claim_inv s u H). destruct (claim s u). exact H0.
  - pose proof (revoke_claim_inv s u return_to_pool H). destruct (revoke_claim s u return_to_pool). exact H0.
  - destruct G as [-> G]. pose proof (assign_inv s u key H G).
    destruct (assign_key_to_user s u key true). exact H0.
  - pose proof (remove_key_inv s key H). destruct (remove_key_from_pool s key). exact H0.
  - pose proof (set_config_inv s min_days_arg mode_arg H).
    destruct (set_config s min_days_arg mode_arg). exact H0.
Qed.

Lemma reachable_inv s0 s : inv s0 -> reachable s0 s -> inv s.
Proof.
  intros H0 R. induction R; [exact H0 | exact (step_inv _ _ IHR H)].
Qed.

(** ** Counting keys *)

(** No key is the empty string. *)
Definition nonempty_keys (s : state) : Prop :=
  ~ In "" (pool s) /\ ~ In "" (values (claims s)).

Lemma clean_keys_nonempty ks x : In x (clean_keys ks) -> x <> "".
Proof.
  unfold clean_keys. intros Hin. apply in_map_iff in Hin as (k & <- & Hk).
  apply filter_In in Hk as [_ Hk]. apply andb_true_iff in Hk as [_ Hk].
  apply negb_true_iff, String.eqb_neq in Hk. exact Hk.
Qed.

Lemma step_count s o :
  inv s -> nonempty_keys s -> pool_op o ->
  let '(s', r) := step s o in
  nonempty_keys s' /\
  (length (pool s') + length (claims s') + purged [(o, r)] =
   length (pool s) + length (claims s) + added [(o, r)])%nat.
Proof.
  intros (Hp & Hk & Hv & Hd) (Np & Nv) Ho. destruct o; simpl in Ho; try contradiction.
  - (* add_keys *)
    unfold step. rewrite add_keys_eq. simpl. rewrite length_app. split; [|lia].
    split; [|exact Nv]. simpl. intros Hin. apply in_app_or in Hin as [Hin|Hin]; [tauto|].
    unfold new_keys in Hin. apply filter_In in Hin as [Hin _].
    exact (clean_keys_nonempty _ _ Hin eq_refl).
  - (* claim *)
    destruct s as [p c f]. unfold step, claim; simpl in *.
    destruct (dict_mem u c) eqn:Hu; [simpl; split; [split; assumption | lia]|].
    destruct p as [|key rest]; [simpl; split; [split; assumption | lia]|].
    unfold dict_mem in Hu. apply mem_false in Hu.
    simpl. rewrite (dict_set_new _ _ _ Hu). split.
    + split; [intros H; apply Np; right; exact H|].
      unfold values; simpl. rewrite map_app. simpl. intros H. apply in_app_or in H as [H|[H|H]].
      * exact (Nv H).
      * apply Np. left. exact H.
      * exact H.
    + rewrite length_app. simpl. lia.
  - (* revoke_claim *)
    destruct s as [p c f]. unfold step, revoke_claim; simpl in *.
    pose proof (dict_pop_spec u c) as Hpop.
    destruct (dict_pop u c) as [[v|] c'].
    + assert (Pv : Permutation (values c) (v :: values c'))
        by (apply (Permutation_map snd Hpop)).
      assert (Hvc : In v (values c)) by (apply (Permutation_in _ (Permutation_sym Pv)); left; reflexivity).
      assert (Hsub : forall x, In x (values c') -> In x (values c)).
      { intros x Hx. apply (Permutation_in _ (Permutation_sym Pv)). right. exact Hx. }
      assert (Hvp : mem v p = false) by (apply mem_false; intros H; exact (Hd v H Hvc)).
      assert (Hve : (v =? "") = false) by (apply String.eqb_neq; intros ->; exact (Nv Hvc)).
      cbn [truthy]. rewrite Hvp, Hve. pose proof (Permutation_length Hpop) as Hl. simpl in Hl.
      destruct return_to_pool; simpl.
      * split; [split; [intros [H|H]; [subst v; exact (Nv Hvc) | exact (Np H)] |
                       intros H; exact (Nv (Hsub _ H))] | lia].
      * split; [split; [exact Np | intros H; exact (Nv (Hsub _ H))] | lia].
    + destruct Hpop as [-> _]. simpl. destruct return_to_pool; (split; [split; assumption | lia]).
Qed.

Lemma run_count s ops :
  inv s -> nonempty_keys s -> Forall pool_op ops ->
  let '(s', tr) := run s ops in
  (length (pool s') + length (claims s') + purged tr =
   length (pool s) + length (claims s) + added tr)%nat.
Proof.
  revert s. induction ops as [|o rest IH]; intros s Hi Hn Hops; simpl; [lia|].
  inversion Hops as [|? ? Ho Hrest]; subst.
  assert (Hg : guarded s o) by (destruct o; simpl in *; tauto).
  pose proof (step_inv s o Hi Hg) as Hi'.
  pose proof (step_count s o Hi Hn Ho) as Hc.
  destruct (step s o) as [s1 r]. destruct Hc as [Hn1 Hc]. simpl in Hi'.
  specialize (IH s1 Hi' Hn1 Hrest). destruct (run s1 rest) as [s2 tr].
  assert (Ha : added ((o, r) :: tr) = (added [(o, r)] + added tr)%nat)
    by (destruct o, r; try destruct return_to_pool; try destruct k; simpl; lia).
  assert (Hp : purged ((o, r) :: tr) = (purged [(o, r)] + purged tr)%nat)
    by (destruct o, r; try destruct return_to_pool; try destruct k; simpl; lia).
  rewrite Ha, Hp. lia.
Qed.

Lemma inv_empty : inv empty_state.
Proof.
  unfold inv, empty_state; simpl. repeat split; try constructor. intros k [].
Qed.

Lemma nonempty_keys_empty : nonempty_keys empty_state.
Proof. unfold nonempty_keys; simpl. tauto. Qed.

Lemma filter_none (k : string) (d : dict) :
  ~ In k (values d) -> filter (fun p => negb (snd p =? k)) d = d.
Proof.
  unfold values. induction d as [|[u v] t IH]; simpl; intros H; [reflexivity|].
  destruct (String.eqb_spec v k); [subst; tauto|]. simpl. rewrite IH; tauto.
Qed.

Lemma filter_one (k : string) (d : dict) :
  NoDup (values d) -> In k (values d) ->
  S (length (filter (fun p => negb (snd p =? k)) d)) = length d.
Proof.
  unfold values. induction d as [|[u v] t IH]; simpl; intros H Hin; [tauto|].
  inversion H as [|? ? Hv Ht]; subst.
  destruct (String.eqb_spec v k).
  - subst. simpl. f_equal. rewrite (filter_none k t Hv). reflexivity.
  - simpl. destruct Hin as [E|E]; [congruence|]. rewrite (IH Ht E). reflexivity.
Qed.

Lemma filter_removes (k : string) (d : dict) :
  ~ In k (values (filter (fun p => negb (snd p =? k)) d)).
Proof.
  unfold values. intros Hin. apply in_map_iff in Hin as ([u v] & E & Hp).
  apply filter_In in Hp as [_ Hp]. simpl in *. subst.
  rewrite String.eqb_refl in Hp. discriminate.
Qed.

Lemma existsb_values (k : string) (d : dict) :
  existsb (fun p => snd p =? k) d = true <-> In k (values d).
Proof.
  unfold values. rewrite existsb_exists, in_map_iff. split.
  - intros (p & Hp & E). apply String.eqb_eq in E. exists p. tauto.
  - intros (p & E & Hp). exists p. split; [exact Hp|]. rewrite E. apply String.eqb_refl.
Qed.

(** Distinctness of a concrete list of strings. *)
Ltac nodup_concrete :=
  vm_compute; repeat (apply NoDup_cons; [simpl; intuition discriminate|]); apply NoDup_nil.

(** ** The claims *)

(** C1, as stated: the ledger operations themselves can break exclusivity.
    From the empty ledger, two [assign_key_to_user] calls bind "K" to two
    identities, and [assign_key_to_user] with [remove_from_pool=False]
    leaves a pooled key both pooled and claimed. *)
Lemma C1_counterexample :
  ~ exclusive (fst (run empty_state [OpAssign "1" "K" true; OpAssign "2" "K" true])) /\
  ~ exclusive (fst (run empty_state [OpAddKeys ["K"]; OpAssign "1" "K" false])).
Proof.
  split; intros [H1 H2].
  - assert (E : "1" = "2") by (apply (H2 "1" "2" "K"); simpl; tauto). discriminate.
  - apply (H1 "K"); simpl; tauto.
Qed.

(** C1 (amended): from any state satisfying [inv] (the empty ledger, or a
    loaded one that satisfies it), every state reached by [add_keys] with
    distinct trimmed candidates, [claim], [revoke_claim],
    [remove_key_from_pool], [set_config], and [assign_key_to_user] called as
    [cmd_assign] calls it ([remove_from_pool=True], key not already bound)
    has no key both pooled and claimed, and no key bound to two identities. *)
Theorem C1_exclusive_guarded (s0 s : state) :
  inv s0 -> reachable s0 s -> exclusive s.
Proof.
  intros H0 R. apply inv_exclusive, (reachable_inv s0 s H0 R).
Qed.

Lemma C1_witness :
  exclusive (fst (step (fst (step empty_state (OpAddKeys ["A"; " B "]))) (OpClaim "1"))).
Proof.
  apply (C1_exclusive_guarded empty_state).
  - exact inv_empty.
  - apply reach_step; [apply reach_step; [apply reach_init|] | exact I].
    nodup_concrete.
Defined.

(** C2, as stated: [assign_key_to_user] binds a key that is already bound
    to another identity, and reports success. *)
Lemma C2_counterexample :
  let s := fst (run empty_state [OpAddKeys ["K"]; OpClaim "1"]) in
  claims s = [("1", "K")] /\
  assign_key_to_user s "2" "K" true =
    (mk_state [] [("1", "K"); ("2", "K")] (cfg s), true).
Proof. split; reflexivity. Qed.

(** C2 (amended): [assign_key_to_user] fails (returns [False], nothing
    changed) exactly when the identity already holds a claim; otherwise it
    binds the key and returns [True] whether or not another identity holds
    the key.  The already-bound check is made by the caller [cmd_assign],
    which answers "already claimed" without calling it when the key is a
    value of the claim map; so of two [cmd_assign] calls for the same
    unclaimed key, the first (by an identity without a claim) assigns it and
    the second gets the already-claimed reply. *)
Theorem C2_assign_outcome (s : state) (u u2 : uid) (k : string) (b : bool) :
  (dict_mem u (claims s) = true -> assign_key_to_user s u k b = (s, false)) /\
  (dict_mem u (claims s) = false ->
   assign_key_to_user s u k b =
     (mk_state (if b then remove_first k (pool s) else pool s)
               (dict_set u k (claims s)) (cfg s), true)) /\
  (In k (values (claims s)) -> cmd_assign s u k = (s, KeyAlreadyClaimed)) /\
  (~ In k (values (claims s)) -> dict_mem u (claims s) = false ->
   let '(s1, r1) := cmd_assign s u k in
   r1 = Assigned /\ get_claim s1 u = Some k /\ cmd_assign s1 u2 k = (s1, KeyAlreadyClaimed)).
Proof.
  unfold cmd_assign, assign_key_to_user.
  split; [intros ->; reflexivity|]. split; [intros ->; reflexivity|].
  split; [intros H; apply mem_In in H; rewrite H; reflexivity|].
  intros Hk Hu. apply mem_false in Hk. rewrite Hk. simpl. rewrite Hu. simpl.
  split; [reflexivity|]. split; [apply dict_get_set|].
  replace (mem k (values (dict_set u k (claims s)))) with true; [reflexivity|].
  symmetry. apply mem_In. apply mem_false in Hk. unfold dict_mem in Hu. apply mem_false in Hu.
  rewrite (dict_set_new _ _ _ Hu). unfold values. rewrite map_app. apply in_or_app.
  right. left. reflexivity.
Qed.

Lemma C2_witness :
  let s := fst (run empty_state [OpAddKeys ["K"]; OpClaim "1"]) in
  cmd_assign s "2" "K" = (s, KeyAlreadyClaimed) /\
  (let '(s1, r1) := cmd_assign empty_state "1" "K" in
   r1 = Assigned /\ get_claim s1 "1" = Some "K" /\
   cmd_assign s1 "2" "K" = (s1, KeyAlreadyClaimed)).
Proof.
  split.
  - apply (C2_assign_outcome _ "2" "2" "K" true). simpl. left. reflexivity.
  - apply (C2_assign_outcome empty_state "1" "2" "K" true); [simpl; tauto | reflexivity].
Defined.

(** C3: [claim] returns [None] and changes nothing when the identity holds
    a claim or the pool is empty; otherwise it pops the head of the pool,
    binds it to the identity and returns it; from the pool ["A";"B";"C"] it
    hands out "A". *)
Theorem C3_claim_fifo (s : state) (u : uid) :
  ((dict_mem u (claims s) = true \/ pool s = []) -> claim s u = (s, None)) /\
  (forall key rest, dict_mem u (claims s) = false -> pool s = key :: rest ->
     claim s u = (mk_state rest (dict_set u key (claims s)) (cfg s), Some key) /\
     get_claim (fst (claim s u)) u = Some key) /\
  (dict_mem u (claims s) = false -> pool s = ["A"; "B"; "C"] ->
     snd (claim s u) = Some "A").
Proof.
  unfold claim. split; [|split].
  - intros [H|H]; rewrite H; [reflexivity|]. destruct (dict_mem u (claims s)); reflexivity.
  - intros key rest Hu Hp. rewrite Hu, Hp. split; [reflexivity|]. apply dict_get_set.
  - intros Hu Hp. rewrite Hu, Hp. reflexivity.
Qed.

Lemma C3_witness :
  let s := mk_state ["A"; "B"; "C"] [("9", "Z")] (cfg empty_state) in
  claim s "9" = (s, None) /\ snd (claim s "1") = Some "A".
Proof.
  split.
  - apply (C3_claim_fifo _ "9"). left. reflexivity.
  - apply (C3_claim_fifo _ "1"); reflexivity.
Defined.

(** C4, as stated: a [revoke_claim] with [return_to_pool=False] purges
    the key, so the sum drops below the number of keys added. *)
Lemma C4_counterexample :
  let '(s, tr) := run empty_state [OpAddKeys ["A"]; OpClaim "1"; OpRevoke "1" false] in
  (available_count s + claim_count s)%nat = 0%nat /\ added tr = 1%nat.
Proof. split; reflexivity. Qed.

(** C4 (amended): from the empty ledger, for every sequence of [add_keys]
    (with candidates distinct once trimmed), [claim] and [revoke_claim]
    calls, [available_count + claim_count] equals the total returned by
    [add_keys] minus the number of [revoke_claim(..., False)] calls that
    removed a claim; with [return_to_pool=True] only, no key is lost. *)
Theorem C4_conservation (ops : list op) :
  Forall pool_op ops ->
  let '(s, tr) := run empty_state ops in
  (available_count s + claim_count s + purged tr = added tr)%nat.
Proof.
  intros H. pose proof (run_count empty_state ops inv_empty nonempty_keys_empty H) as Hc.
  destruct (run empty_state ops) as [s tr]. unfold available_count, claim_count.
  simpl in Hc. lia.
Qed.

Lemma C4_witness :
  let '(s, tr) := run empty_state
                    [OpAddKeys ["A"; "B"]; OpClaim "1"; OpRevoke "1" true;
                     OpClaim "2"; OpRevoke "2" false; OpAddKeys ["B"; "C"]] in
  (available_count s + claim_count s + purged tr = added tr)%nat.
Proof.
  apply C4_conservation.
  repeat apply Forall_cons; simpl; try exact I; try nodup_concrete. apply Forall_nil.
Defined.

(** C5, as stated: [set_config] stores any [min_days], out of range or
    not, and reports success. *)
Lemma C5_counterexample :
  set_config empty_state (Some (-5)%Z) None =
  (mk_state [] [] (mk_config (-5) "account"), ConfigOk).
Proof. reflexivity. Qed.

(** C5 (amended): [set_config] raises [ValueError] on a mode outside
    {account, guild}, leaving the stored mode, the pool and the claims
    unchanged (and the whole state unchanged when no [min_days] is given);
    it stores any [min_days] it is given without a range check.  The range
    0..3650 is checked by its caller [cmd_setdays], which rejects other
    values without calling it, leaving the state unchanged. *)
Theorem C5_set_config_validation (s : state) (d : option Z) (m : string) (days : Z) :
  (String.eqb m "account" = false -> String.eqb m "guild" = false ->
   snd (set_config s d (Some m)) = ConfigValueError /\
   mode (cfg (fst (set_config s d (Some m)))) = mode (cfg s) /\
   pool (fst (set_config s d (Some m))) = pool s /\
   claims (fst (set_config s d (Some m))) = claims s /\
   set_config s None (Some m) = (s, ConfigValueError)) /\
  set_config s (Some days) None =
    (mk_state (pool s) (claims s) (mk_config days (mode (cfg s))), ConfigOk) /\
  ((days < 0 \/ 3650 < days)%Z -> cmd_setdays s days = (s, false)) /\
  ((0 <= days <= 3650)%Z ->
   cmd_setdays s days = (mk_state (pool s) (claims s) (mk_config days (mode (cfg s))), true)).
Proof.
  split; [|split; [reflexivity|split]].
  - intros Ha Hg. unfold set_config. rewrite Ha, Hg. simpl.
    destruct d; simpl; repeat split; destruct s; reflexivity.
  - intros H. unfold cmd_setdays.
    replace ((days <? 0)%Z || (3650 <? days)%Z)%bool with true; [reflexivity|].
    symmetry. apply orb_true_iff. destruct H; [left | right]; apply Z.ltb_lt; exact H.
  - intros H. unfold cmd_setdays.
    replace ((days <? 0)%Z || (3650 <? days)%Z)%bool with false; [reflexivity|].
    symmetry. apply orb_false_iff. split; apply Z.ltb_ge; lia.
Qed.

Lemma C5_witness :
  set_config empty_state None (Some "bogus") = (empty_state, ConfigValueError) /\
  cmd_setdays empty_state 5000 = (empty_state, false) /\
  cmd_setdays empty_state 30 = (mk_state [] [] (mk_config 30 "account"), true).
Proof.
  split; [|split].
  - apply (C5_set_config_validation empty_state None "bogus" 0); reflexivity.
  - apply (C5_set_config_validation empty_state None "bogus" 5000). right. lia.
  - apply (C5_set_config_validation empty_state None "bogus" 30). lia.
Defined.

(** C6: [add_keys] on the empty ledger with the candidates ["X"; "X"]
    appends "X" twice and reports 2 new keys, leaving a duplicate in the
    pool (the load path [_load] de-duplicates the pool with
    [dict.fromkeys]; [add_keys] de-duplicates only against the keys
    already in the system). *)
Theorem C6_add_keys_repeated_candidate :
  add_keys empty_state ["X"; "X"] = (mk_state ["X"; "X"] [] (cfg empty_state), 2%nat) /\
  ~ NoDup (pool (fst (add_keys empty_state ["X"; "X"]))).
Proof.
  split; [reflexivity|]. simpl. intros H. inversion H as [|? ? Hx _]. apply Hx. left. reflexivity.
Qed.

(** C7: after a [claim] that returned [K], a second [claim] by the same
    identity returns [None], leaves the state (so the pool) unchanged, and
    [get_claim] still returns [K]. *)
Theorem C7_claim_idempotent (s s1 : state) (u : uid) (K : string) :
  claim s u = (s1, Some K) ->
  claim s1 u = (s1, None) /\ get_claim s1 u = Some K.
Proof.
  unfold claim. destruct (dict_mem u (claims s)) eqn:Hu; [discriminate|].
  destruct (pool s) as [|key rest]; [discriminate|].
  intros E. inversion E; subst; clear E. simpl.
  rewrite dict_mem_set. split; [reflexivity|]. apply dict_get_set.
Qed.

Lemma C7_witness :
  let s1 := fst (claim (mk_state ["A"; "B"] [] (cfg empty_state)) "1") in
  claim s1 "1" = (s1, None) /\ get_claim s1 "1" = Some "A".
Proof.
  apply (C7_claim_idempotent (mk_state ["A"; "B"] [] (cfg empty_state))). reflexivity.
Defined.

(** C8, as stated: a revoked empty-string key is falsy for
    [if key and return_to_pool], so it is not put back, and the next claim
    hands out the pool's former head instead. *)
Lemma C8_counterexample :
  let s := fst (run empty_state [OpAddKeys ["A"]; OpAssign "1" "" true]) in
  let '(s1, k) := revoke_claim s "1" true in
  k = Some "" /\ ~ In "" (pool s) /\ dict_mem "2" (claims s1) = false /\
  snd (claim s1 "2") = Some "A".
Proof. vm_compute. repeat split; try reflexivity. intros [H|[]]. discriminate. Qed.

(** C8 (amended): if [revoke_claim(user1, True)] returns a non-empty key
    [K] that was not in the pool, [K] is put at the pool head, and the next
    [claim] by an identity without a claim returns [K]. *)
Theorem C8_reuse_at_head (s s1 : state) (u1 u2 : uid) (K : string) :
  K <> "" -> ~ In K (pool s) -> revoke_claim s u1 true = (s1, Some K) ->
  dict_mem u2 (claims s1) = false ->
  pool s1 = K :: pool s /\ snd (claim s1 u2) = Some K.
Proof.
  intros Hne Hin. unfold revoke_claim.
  destruct (dict_pop u1 (claims s)) as [key c'].
  intros E Hu. inversion E; subst; clear E. simpl.
  apply String.eqb_neq in Hne. apply mem_false in Hin. rewrite Hne, Hin. simpl.
  split; [reflexivity|]. unfold claim. simpl in *. rewrite Hu. reflexivity.
Qed.

Lemma C8_witness :
  let s := fst (run empty_state [OpAddKeys ["A"; "B"]; OpClaim "1"; OpAddKeys ["C"]]) in
  pool (fst (revoke_claim s "1" true)) = "A" :: pool s /\
  snd (claim (fst (revoke_claim s "1" true)) "2") = Some "A".
Proof.
  apply (C8_reuse_at_head _ _ "1" "2" "A").
  - discriminate.
  - simpl. intuition discriminate.
  - reflexivity.
  - reflexivity.
Defined.

(** C9, as stated: when two identities hold the key (a state reached by
    two [assign_key_to_user] calls), [remove_key_from_pool] removes both
    claim entries. *)
Lemma C9_counterexample :
  let s := fst (run empty_state [OpAssign "1" "K" true; OpAssign "2" "K" true]) in
  claim_count s = 2%nat /\
  remove_key_from_pool s "K" = (mk_state [] [] (cfg s), true) /\
  claim_count (fst (remove_key_from_pool s "K")) = 0%nat.
Proof. repeat split; reflexivity. Qed.

(** C9 (amended): a pooled key is stripped from the pool and [True]
    returned.  Otherwise every claim entry bound to the key is removed, the
    pool (so [available_count]) is unchanged, the key is no longer bound
    anywhere, and the result is [True] exactly when some entry was bound to
    it; [False] comes with an unchanged claim map.  When no key is bound
    twice, exactly one entry is removed. *)
Theorem C9_remove_key (s : state) (k : string) :
  (In k (pool s) ->
   remove_key_from_pool s k =
     (mk_state (filter (fun x => negb (x =? k)) (pool s)) (claims s) (cfg s), true)) /\
  (~ In k (pool s) ->
   let '(s', r) := remove_key_from_pool s k in
   pool s' = pool s /\
   claims s' = filter (fun p => negb (snd p =? k)) (claims s) /\
   ~ In k (values (claims s')) /\
   (r = true <-> In k (values (claims s))) /\
   (r = false -> claims s' = claims s) /\
   (NoDup (values (claims s)) -> r = true -> S (claim_count s') = claim_count s)).
Proof.
  unfold remove_key_from_pool. split.
  - intros H. apply mem_In in H. rewrite H. reflexivity.
  - intros H. apply mem_false in H. rewrite H. simpl.
    split; [reflexivity|]. split; [reflexivity|]. split; [apply filter_removes|].
    split; [apply existsb_values|]. split.
    + intros Hr. apply filter_none. intros Hin. apply existsb_values in Hin. congruence.
    + intros Hv Hr. apply existsb_values in Hr. unfold claim_count. simpl.
      apply filter_one; assumption.
Qed.

Lemma C9_witness :
  let s := mk_state ["A"] [("3", "B"); ("4", "C")] (cfg empty_state) in
  remove_key_from_pool s "A" = (mk_state [] (claims s) (cfg s), true) /\
  (S (claim_count (fst (remove_key_from_pool s "B"))) = claim_count s).
Proof.
  intros s. split.
  - exact (proj1 (C9_remove_key s "A") (or_introl eq_refl)).
  - pose proof (proj2 (C9_remove_key s "B")) as H.
    destruct (remove_key_from_pool s "B") as [s' r] eqn:E. simpl.
    destruct (H ltac:(simpl; intuition discriminate)) as (_ & _ & _ & Hr & _ & Hc).
    apply Hc; [nodup_concrete | apply Hr; simpl; tauto].
Defined.

(** C10: when the key is pooled, [remove_key_from_pool] removes every
    occurrence of it from the pool, returns [True] and leaves the claim map
    as it is, even when the key is also bound to an identity. *)
Theorem C10_pool_first (s : state) (k : string) :
  In k (pool s) ->
  remove_key_from_pool s k =
    (mk_state (filter (fun x => negb (x =? k)) (pool s)) (claims s) (cfg s), true) /\
  ~ In k (pool (fst (remove_key_from_pool s k))) /\
  claims (fst (remove_key_from_pool s k)) = claims s.
Proof.
  intros H. unfold remove_key_from_pool. apply mem_In in H. rewrite H. simpl.
  split; [reflexivity|]. split; [|reflexivity].
  intros Hin. apply filter_In in Hin as [_ Hin]. rewrite String.eqb_refl in Hin. discriminate.
Qed.

Lemma C10_witness :
  let s := mk_state ["K"; "A"] [("1", "K")] (cfg empty_state) in
  remove_key_from_pool s "K" = (mk_state ["A"] [("1", "K")] (cfg s), true) /\
  ~ In "K" (pool (fst (remove_key_from_pool s "K"))) /\
  claims (fst (remove_key_from_pool s "K")) = [("1", "K")].
Proof.
  apply (C10_pool_first (mk_state ["K"; "A"] [("1", "K")] (cfg empty_state)) "K").
  left. reflexivity.
Defined.

(** * Further properties of the code *)

Lemma dict_mem_get k d : dict_mem k d = true <-> dict_get k d <> None.
Proof.
  unfold dict_mem, keys. induction d as [|[k' v] t IH]; simpl.
  - split; [discriminate | tauto].
  - destruct (String.eqb_spec k k'); simpl; [split; [discriminate | reflexivity]|].
    exact IH.
Qed.

Lemma dict_pop_get k d : fst (dict_pop k d) = dict_get k d.
Proof.
  induction d as [|[k' v] t IH]; simpl; [reflexivity|].
  destruct (String.eqb k k'); [reflexivity|].
  destruct (dict_pop k t) as [r t']. exact IH.
Qed.

Lemma dict_pop_snoc k v d :
  ~ In k (keys d) -> dict_pop k (d ++ [(k, v)])%list = (Some v, d).
Proof.
  induction d as [|[k' v'] t IH]; simpl; intros H.
  - rewrite String.eqb_refl. reflexivity.
  - destruct (String.eqb_spec k k'); [subst; tauto|].
    rewrite IH; [reflexivity | tauto].
Qed.

Lemma filter_all_false {A} (f : A -> bool) l :
  (forall x, In x l -> f x = false) -> filter f l = [].
Proof.
  induction l as [|x t IH]; simpl; intros H; [reflexivity|].
  rewrite (H x (or_introl eq_refl)). apply IH. intros y Hy. apply H. right. exact Hy.
Qed.

(** [has_claimed] answers [True] exactly when [get_claim] finds a key. *)
Theorem X1_has_claimed_get_claim (s : state) (u : uid) :
  has_claimed s u = true <-> exists k, get_claim s u = Some k.
Proof.
  unfold has_claimed, get_claim. rewrite dict_mem_get.
  destruct (dict_get u (claims s)); split.
  - intros _. eexists. reflexivity.
  - discriminate.
  - tauto.
  - intros [k E]. discriminate.
Qed.

Lemma revoke_claim_spec (s : state) (u : uid) (b : bool) :
  NoDup (keys (claims s)) ->
  snd (revoke_claim s u b) = get_claim s u /\
  has_claimed (fst (revoke_claim s u b)) u = false /\
  (get_claim s u = None -> revoke_claim s u b = (s, None)).
Proof.
  intros Hk. destruct s as [p c f]. unfold revoke_claim, get_claim, has_claimed; simpl in *.
  pose proof (dict_pop_get u c) as Hg. pose proof (dict_pop_spec u c) as Hpop.
  destruct (dict_pop u c) as [[v|] c']; simpl in *.
  - split; [exact Hg|]. split; [|intros E; congruence].
    apply mem_false. apply (Permutation_map fst) in Hpop. simpl in Hpop.
    apply (Permutation_NoDup Hpop) in Hk. inversion Hk. assumption.
  - destruct Hpop as [-> Hn]. split; [exact Hg|]. split; [apply mem_false; exact Hn|].
    intros _. reflexivity.
Qed.

(** [revoke_claim] returns the key [get_claim] reports (or [None]); when the
    claim map's identities are distinct the identity has no claim left
    afterwards; and revoking an identity without a claim changes nothing. *)
Theorem X2_revoke_claim_result (s : state) (u : uid) (b : bool) :
  NoDup (keys (claims s)) ->
  snd (revoke_claim s u b) = get_claim s u /\
  has_claimed (fst (revoke_claim s u b)) u = false /\
  (get_claim s u = None -> revoke_claim s u b = (s, None)).
Proof. exact (revoke_claim_spec s u b). Qed.

Lemma X2_witness :
  let s := mk_state [] [("1", "A"); ("2", "B")] (cfg empty_state) in
  snd (revoke_claim s "2" false) = Some "B" /\
  has_claimed (fst (revoke_claim s "2" false)) "2" = false /\
  (get_claim s "3" = None -> revoke_claim s "3" true = (s, None)).
Proof.
  intros s. split; [|split].
  - apply (X2_revoke_claim_result s "2" false). nodup_concrete.
  - apply (X2_revoke_claim_result s "2" false). nodup_concrete.
  - apply (X2_revoke_claim_result s "3" true). nodup_concrete.
Defined.

(** A [claim] followed by [revoke_claim(..., True)] for the same identity
    gives the key back and restores the pool, with the key at its head
    again, and the claim map, when the pool has no duplicate and no empty
    key. *)
Theorem X3_claim_then_revoke (s s1 : state) (u : uid) (K : string) :
  NoDup (pool s) -> ~ In "" (pool s) -> claim s u = (s1, Some K) ->
  revoke_claim s1 u true = (mk_state (pool s) (claims s) (cfg s), Some K).
Proof.
  intros Hp Hne. destruct s as [p c f]. unfold claim; simpl in *.
  destruct (dict_mem u c) eqn:Hu; [discriminate|].
  destruct p as [|key rest]; [discriminate|].
  intros E. inversion E; subst; clear E.
  unfold dict_mem in Hu. apply mem_false in Hu.
  unfold revoke_claim; simpl. rewrite (dict_set_new _ _ _ Hu), (dict_pop_snoc _ _ _ Hu).
  inversion Hp as [|? ? Hk _]; subst. apply mem_false in Hk.
  assert (Hne' : (K =? "") = false) by (apply String.eqb_neq; intros ->; apply Hne; left; reflexivity).
  simpl. rewrite Hne', Hk. reflexivity.
Qed.

Lemma X3_witness :
  revoke_claim (fst (claim (mk_state ["A"; "B"] [("9", "C")] (cfg empty_state)) "1")) "1" true =
  (mk_state ["A"; "B"] [("9", "C")] (cfg empty_state), Some "A").
Proof.
  apply (X3_claim_then_revoke (mk_state ["A"; "B"] [("9", "C")] (cfg empty_state))).
  - nodup_concrete.
  - simpl. intuition discriminate.
  - reflexivity.
Defined.

(** Calling [add_keys] again with the same candidates adds nothing: it
    returns 0 and leaves the ledger as the first call left it. *)
Theorem X4_add_keys_twice (s : state) (ks : list string) :
  add_keys (fst (add_keys s ks)) ks = (fst (add_keys s ks), 0%nat).
Proof.
  rewrite (add_keys_eq (fst (add_keys s ks))).
  assert (E : new_keys (fst (add_keys s ks)) ks = []).
  { unfold new_keys. apply filter_all_false. intros x Hx.
    apply negb_false_iff, mem_In. rewrite add_keys_eq. simpl.
    destruct (mem x (pool s ++ values (claims s))%list) eqn:Hm.
    - apply mem_In in Hm. apply in_app_or in Hm as [H|H];
        apply in_or_app; [left; apply in_or_app; left | right]; exact H.
    - apply in_or_app. left. apply in_or_app. right. unfold new_keys.
      apply filter_In. rewrite Hm. split; [exact Hx | reflexivity]. }
  rewrite E. simpl. rewrite app_nil_r. rewrite add_keys_eq. reflexivity.
Qed.

Lemma drop_spaces_idem l : drop_spaces (drop_spaces l) = drop_spaces l.
Proof.
  induction l as [|c t IH]; simpl; [reflexivity|].
  destruct (is_space c) eqn:E; [exact IH|]. simpl. rewrite E. reflexivity.
Qed.

Lemma drop_spaces_suffix l : exists p, l = (p ++ drop_spaces l)%list.
Proof.
  induction l as [|c t [p IH]]; simpl; [exists []; reflexivity|].
  destruct (is_space c); [exists (c :: p); simpl; f_equal; exact IH | exists []; reflexivity].
Qed.

Lemma drop_spaces_head l :
  match drop_spaces l with [] => True | c :: _ => is_space c = false end.
Proof.
  induction l as [|c t IH]; simpl; [exact I|].
  destruct (is_space c) eqn:E; [exact IH | exact E].
Qed.

Lemma drop_spaces_keep l :
  match l with [] => True | c :: _ => is_space c = false end -> drop_spaces l = l.
Proof. destruct l as [|c t]; simpl; [reflexivity|]. intros E. rewrite E. reflexivity. Qed.

Lemma strip_idem s : strip (strip s) = strip s.
Proof.
  unfold strip. rewrite list_ascii_of_string_of_list_ascii. f_equal.
  set (l1 := drop_spaces (list_ascii_of_string s)).
  set (m := rev l1).
  assert (Hkeep : drop_spaces (rev (drop_spaces m)) = rev (drop_spaces m)).
  { destruct (drop_spaces_suffix m) as [p Hp].
    pose proof (drop_spaces_head (list_ascii_of_string s)) as Hh. fold l1 in Hh.
    assert (Hl1 : l1 = (rev (drop_spaces m) ++ rev p)%list).
    { rewrite <- rev_app_distr, <- Hp. unfold m. rewrite rev_involutive. reflexivity. }
    apply drop_spaces_keep. destruct (rev (drop_spaces m)) as [|c t] eqn:E; [exact I|].
    rewrite Hl1 in Hh. simpl in Hh. exact Hh. }
  rewrite Hkeep, rev_involutive, drop_spaces_idem. reflexivity.
Qed.

Lemma strip_empty : strip "" = "".
Proof. reflexivity. Qed.

Lemma clean_keys_alt ks : clean_keys ks = map strip (filter (fun k => negb (strip k =? "")) ks).
Proof.
  unfold clean_keys. f_equal. apply filter_ext. intros k.
  destruct (String.eqb_spec k ""); [subst; reflexivity | reflexivity].
Qed.

Lemma clean_keys_map_strip ks : clean_keys (map strip ks) = clean_keys ks.
Proof.
  rewrite !clean_keys_alt. induction ks as [|k t IH]; simpl; [reflexivity|].
  rewrite strip_idem. destruct (strip k =? ""); simpl; [exact IH|].
  rewrite strip_idem. f_equal. exact IH.
Qed.

(** Trimming the candidates before [add_keys], as [cmd_addkeys] does with
    [p.strip()], makes no difference: [add_keys] trims them the same way. *)
Theorem X5_add_keys_pretrimmed (s : state) (ks : list string) :
  add_keys s (map strip ks) = add_keys s ks.
Proof. unfold add_keys. rewrite clean_keys_map_strip. reflexivity. Qed.

Lemma keys_dict_set_in k v d : In k (keys d) -> keys (dict_set k v d) = keys d.
Proof.
  unfold keys. induction d as [|[k' v'] t IH]; simpl; [tauto|].
  destruct (String.eqb_spec k k'); simpl; [subst; reflexivity|].
  intros [E|E]; [congruence|]. rewrite (IH E). reflexivity.
Qed.

Lemma keys_dict_set_notin k v d : ~ In k (keys d) -> keys (dict_set k v d) = (keys d ++ [k])%list.
Proof. intros H. rewrite (dict_set_new _ _ _ H). unfold keys. rewrite map_app. reflexivity. Qed.

Lemma fromkeys_fold ks d :
  NoDup (keys d) ->
  NoDup (keys (fold_left (fun d k => dict_set k "" d) ks d)) /\
  (forall x, In x (keys (fold_left (fun d k => dict_set k "" d) ks d)) <-> In x (keys d) \/ In x ks).
Proof.
  revert d. induction ks as [|k t IH]; intros d Hd; simpl; [split; [exact Hd | tauto]|].
  assert (Hd' : NoDup (keys (dict_set k "" d)) /\
                forall x, In x (keys (dict_set k "" d)) <-> In x (keys d) \/ x = k).
  { destruct (in_dec String.string_dec k (keys d)) as [Hin|Hin].
    - rewrite (keys_dict_set_in _ _ _ Hin). split; [exact Hd|]. intros x. split; [tauto|].
      intros [H | ->]; assumption.
    - rewrite (keys_dict_set_notin _ _ _ Hin). split; [apply NoDup_snoc; assumption|].
      intros x. rewrite in_app_iff. simpl. split.
      + intros [H|[H|[]]]; [left; exact H | right; symmetry; exact H].
      + intros [H|H]; [left; exact H | right; left; symmetry; exact H]. }
  destruct Hd' as [Hn Hi]. destruct (IH _ Hn) as [H1 H2]. split; [exact H1|].
  intros x. rewrite H2, Hi. simpl. split.
  - intros [[H|H]|H]; [left; exact H | right; left; symmetry; exact H | right; right; exact H].
  - intros [H|[H|H]]; [left; left; exact H | left; right; symmetry; exact H | right; exact H].
Qed.

Lemma fromkeys_nodup_id ks d :
  NoDup (keys d ++ ks)%list ->
  keys (fold_left (fun d k => dict_set k "" d) ks d) = (keys d ++ ks)%list.
Proof.
  revert d. induction ks as [|k t IH]; intros d Hd; simpl; [rewrite app_nil_r; reflexivity|].
  assert (Hk : ~ In k (keys d)).
  { intros H. apply (NoDup_remove_2 (keys d) t k Hd). apply in_or_app. left. exact H. }
  assert (E : keys (dict_set k "" d) = (keys d ++ [k])%list) by (apply keys_dict_set_notin, Hk).
  rewrite IH; rewrite E; [rewrite <- app_assoc; reflexivity|].
  rewrite <- app_assoc. exact Hd.
Qed.

(** The pool [_load] rebuilds from a stored list has no duplicate, and
    holds exactly the trimmed, non-empty stored keys, each trimmed. *)
Theorem X6_load_pool_clean (raw : list string) :
  NoDup (load_pool raw) /\
  (forall x, In x (load_pool raw) <-> exists k, In k raw /\ strip k = x /\ x <> "") /\
  stripped_keys (load_pool raw).
Proof.
  unfold load_pool, fromkeys.
  destruct (fromkeys_fold (clean_keys raw) [] (NoDup_nil _)) as [H1 H2].
  assert (Hc : forall x, In x (clean_keys raw) <-> exists k, In k raw /\ strip k = x /\ x <> "").
  { intros x. unfold clean_keys. rewrite in_map_iff. split.
    - intros (k & <- & Hk). apply filter_In in Hk as [Hk Hf].
      apply andb_true_iff in Hf as [_ Hf]. apply negb_true_iff, String.eqb_neq in Hf.
      exists k. tauto.
    - intros (k & Hk & <- & Hne). exists k. split; [reflexivity|]. apply filter_In.
      split; [exact Hk|]. apply andb_true_iff. split; apply negb_true_iff, String.eqb_neq;
        [intros ->; exact (Hne strip_empty) | exact Hne]. }
  split; [exact H1|]. split.
  - intros x. rewrite H2, <- Hc. simpl. tauto.
  - unfold stripped_keys. apply Forall_forall. intros x Hx.
    apply H2 in Hx as [[]|Hx]. apply Hc in Hx as (k & _ & <- & Hne).
    split; [apply strip_idem | exact Hne].
Qed.

Lemma clean_keys_stripped p : stripped_keys p -> clean_keys p = p.
Proof.
  rewrite clean_keys_alt. induction p as [|k t IH]; intros H; simpl; [reflexivity|].
  inversion H as [|? ? [Hs Hne] Ht]; subst. rewrite Hs.
  apply String.eqb_neq in Hne. rewrite Hne. simpl. rewrite Hs, (IH Ht). reflexivity.
Qed.

Lemma load_pool_id (p : list string) : NoDup p -> stripped_keys p -> load_pool p = p.
Proof.
  intros Hn Hs. unfold load_pool, fromkeys. rewrite (clean_keys_stripped p Hs).
  apply (fromkeys_nodup_id p []). exact Hn.
Qed.

(** Reloading a saved pool gives it back unchanged when it has no duplicate
    and every key is trimmed and non-empty. *)
Theorem X7_load_pool_roundtrip (p : list string) :
  NoDup p -> stripped_keys p -> load_pool p = p.
Proof. exact (load_pool_id p). Qed.

Lemma X7_witness : load_pool ["A"; "B"; "C"] = ["A"; "B"; "C"].
Proof.
  apply X7_load_pool_roundtrip.
  - nodup_concrete.
  - unfold stripped_keys.
    repeat (apply Forall_cons; [split; [reflexivity | discriminate] |]). apply Forall_nil.
Defined.

Lemma step_stripped s o :
  stripped_keys (pool s) -> stripped_keys (values (claims s)) -> pool_op o ->
  stripped_keys (pool (fst (step s o))) /\ stripped_keys (values (claims (fst (step s o)))).
Proof.
  unfold stripped_keys. rewrite !Forall_forall. intros Hp Hv Ho.
  destruct o; simpl in Ho; try contradiction; unfold step.
  - rewrite add_keys_eq. simpl. split; [|exact Hv]. intros x Hx.
    apply in_app_or in Hx as [Hx|Hx]; [exact (Hp x Hx)|].
    unfold new_keys in Hx. apply filter_In in Hx as [Hx _].
    split; [|exact (clean_keys_nonempty _ _ Hx)].
    unfold clean_keys in Hx. apply in_map_iff in Hx as (k & <- & _). apply strip_idem.
  - destruct s as [p c f]. unfold claim; simpl in *.
    destruct (dict_mem u c) eqn:Hu; [simpl; tauto|].
    destruct p as [|key rest]; [simpl; tauto|].
    unfold dict_mem in Hu. apply mem_false in Hu. simpl. rewrite (dict_set_new _ _ _ Hu).
    split; [intros x Hx; apply Hp; right; exact Hx|].
    unfold values. rewrite map_app. intros x Hx. apply in_app_or in Hx as [Hx|[Hx|[]]].
    + exact (Hv x Hx).
    + subst. apply Hp. left. reflexivity.
  - destruct s as [p c f]. unfold revoke_claim; simpl in *.
    pose proof (dict_pop_spec u c) as Hpop.
    destruct (dict_pop u c) as [[v|] c'].
    + apply (Permutation_map snd) in Hpop. simpl in Hpop.
      assert (Hsub : forall x, In x (v :: values c') -> In x (values c))
        by (intros x Hx; exact (Permutation_in _ (Permutation_sym Hpop) Hx)).
      simpl. split.
      * destruct (_ && _ && _)%bool; [|exact Hp].
        intros x [<-|Hx]; [apply Hv, Hsub; left; reflexivity | exact (Hp x Hx)].
      * intros x Hx. apply Hv, Hsub. right. exact Hx.
    + destruct Hpop as [-> _]. simpl. tauto.
Qed.

Lemma run_pool_op_inv s ops :
  inv s -> stripped_keys (pool s) -> stripped_keys (values (claims s)) -> Forall pool_op ops ->
  inv (fst (run s ops)) /\ stripped_keys (pool (fst (run s ops))).
Proof.
  revert s. induction ops as [|o rest IH]; intros s Hi Hp Hv Hops; simpl; [tauto|].
  inversion Hops as [|? ? Ho Hrest]; subst.
  assert (Hg : guarded s o) by (destruct o; simpl in *; tauto).
  pose proof (step_inv s o Hi Hg) as Hi'. pose proof (step_stripped s o Hp Hv Ho) as [Hp' Hv'].
  destruct (step s o) as [s1 r]. simpl in *.
  specialize (IH s1 Hi' Hp' Hv' Hrest). destruct (run s1 rest) as [s2 tr]. exact IH.
Qed.

(** From the empty ledger, after any sequence of [add_keys] (candidates
    distinct once trimmed), [claim] and [revoke_claim] calls, the pool that
    [_save_pool] writes is read back by [_load] unchanged. *)
Theorem X8_saved_pool_reloads (ops : list op) :
  Forall pool_op ops ->
  load_pool (pool (fst (run empty_state ops))) = pool (fst (run empty_state ops)).
Proof.
  intros H. destruct (run_pool_op_inv empty_state ops inv_empty
                        (Forall_nil _) (Forall_nil _) H) as [(Hp & _) Hs].
  apply load_pool_id; assumption.
Qed.

Lemma X8_witness :
  let s := fst (run empty_state [OpAddKeys [" A"; "B "; "C"]; OpClaim "1"; OpClaim "2";
                                 OpRevoke "1" true]) in
  load_pool (pool s) = pool s.
Proof.
  apply X8_saved_pool_reloads.
  repeat apply Forall_cons; simpl; try exact I; try nodup_concrete. apply Forall_nil.
Defined.

(** ** The Try button *)

Lemma try_gate_replies c now g j t r :
  try_gate c now g j t = Some r ->
  r = TryError \/ r = NeedGuildContext \/ r = GuildAgeNotMet (min_days c) \/
  r = AccountAgeNotMet (min_days c).
Proof.
  unfold try_gate. destruct (timedelta_days (min_days c)) as [z|];
    [|intros E; inversion E; tauto].
  destruct (mode c =? "guild"); [destruct g; simpl; [destruct j as [j|]; [destruct (now - j <? z)%Z|]|]
                                 | destruct t as [t|]; [destruct (now - t <? z)%Z|]];
    intros E; inversion E; tauto.
Qed.

(** The Try button changes the ledger only when it hands out a key (given
    no empty key in the pool, which [add_keys] and [_load] never put
    there). *)
Theorem X9_try_button_frame (s : state) (u : uid) (now : Z) (g : bool) (j t : option Z) :
  ~ In "" (pool s) ->
  (forall k, snd (try_button s u now g j t) <> HereIsKey k) ->
  fst (try_button s u now g j t) = s.
Proof.
  intros Hne. unfold try_button.
  destruct (try_gate (cfg s) now g j t); [reflexivity|].
  unfold try_claim. destruct (has_claimed s u) eqn:Hh; [reflexivity|].
  unfold claim. unfold has_claimed in Hh. rewrite Hh.
  destruct (pool s) as [|key rest] eqn:Hp; [reflexivity|].
  assert (Hk : (key =? "") = false).
  { apply String.eqb_neq. intros E. subst key. apply Hne. try rewrite Hp. left. reflexivity. }
  simpl. rewrite Hk. simpl. intros H. exfalso. exact (H key eq_refl).
Qed.

Lemma X9_witness :
  let s := mk_state ["A"] [] (mk_config 7 "account") in
  fst (try_button s "1" 0%Z true None (Some 0%Z)) = s.
Proof.
  intros s. apply X9_try_button_frame.
  - simpl. intuition discriminate.
  - intros k. vm_compute. discriminate.
Defined.

(** When the Try button hands a key to an identity, that identity had no
    claim, the key was the head of the pool, the identity now holds it,
    and a second press with the same inputs answers "already claimed" with
    that key and changes nothing. *)
Theorem X10_try_button_once (s s' : state) (u : uid) (now : Z) (g : bool) (j t : option Z)
  (k : string) :
  try_button s u now g j t = (s', HereIsKey k) ->
  has_claimed s u = false /\ pool s = k :: pool s' /\ get_claim s' u = Some k /\
  try_button s' u now g j t = (s', AlreadyClaimed (Some k)).
Proof.
  unfold try_button. destruct (try_gate (cfg s) now g j t) as [r|] eqn:Eg.
  - intros E. inversion E; subst. apply try_gate_replies in Eg. intuition discriminate.
  - unfold try_claim. destruct (has_claimed s u) eqn:Hh; [discriminate|].
    unfold claim. unfold has_claimed in Hh. rewrite Hh.
    destruct (pool s) as [|key rest] eqn:Hp; [discriminate|].
    simpl. destruct (key =? "") eqn:Hk; simpl; [discriminate|].
    intros E. inversion E; subst; clear E. simpl.
    repeat split; unfold get_claim, try_button, try_claim, has_claimed; cbn [claims cfg];
      try rewrite Eg; rewrite ?dict_mem_set, ?dict_get_set; reflexivity.
Qed.

Lemma X10_witness :
  let s := mk_state ["A"; "B"] [] (mk_config 7 "account") in
  try_button (fst (try_button s "1" (10 * US_PER_DAY)%Z true None (Some 0%Z))) "1"
             (10 * US_PER_DAY)%Z true None (Some 0%Z) =
  (fst (try_button s "1" (10 * US_PER_DAY)%Z true None (Some 0%Z)), AlreadyClaimed (Some "A")).
Proof.
  intros s. apply (X10_try_button_once s). reflexivity.
Defined.

Lemma timedelta_ok d : (Z.abs d <= 999999999)%Z -> timedelta_days d = Some (d * US_PER_DAY)%Z.
Proof. intros H. unfold timedelta_days. apply Z.leb_le in H. rewrite H. reflexivity. Qed.

(** In any mode but "guild" (a corrupt stored mode included) the Try button
    checks the account's age and ignores guild data: no [created_at], or an
    account younger than [min_days] days, is refused; an account exactly
    [min_days] days old or older goes on to the claim. *)
Theorem X11_try_button_account_age (s : state) (u : uid) :
  mode (cfg s) <> "guild" -> (Z.abs (min_days (cfg s)) <= 999999999)%Z ->
  (forall now g j, try_button s u now g j None = (s, AccountAgeNotMet (min_days (cfg s)))) /\
  (forall now g j tc, (now - tc < min_days (cfg s) * US_PER_DAY)%Z ->
     try_button s u now g j (Some tc) = (s, AccountAgeNotMet (min_days (cfg s)))) /\
  (forall now g j tc, (min_days (cfg s) * US_PER_DAY <= now - tc)%Z ->
     try_button s u now g j (Some tc) = try_claim s u).
Proof.
  intros Hm Hd. unfold try_button, try_gate. rewrite (timedelta_ok _ Hd).
  apply String.eqb_neq in Hm. rewrite Hm.
  split; [reflexivity|]. split.
  - intros now g j tc H. apply Z.ltb_lt in H. rewrite H. reflexivity.
  - intros now g j tc H. apply Z.ltb_ge in H. rewrite H. reflexivity.
Qed.

Lemma X11_witness :
  let s := mk_state ["A"] [] (mk_config 7 "Guild") in
  try_button s "1" (7 * US_PER_DAY)%Z false None (Some 0%Z) = try_claim s "1".
Proof.
  intros s. apply (X11_try_button_account_age s "1").
  - discriminate.
  - vm_compute. discriminate.
  - vm_compute. discriminate.
Defined.

(** In "guild" mode the Try button checks the membership age and ignores
    the account's: without a guild it answers that a guild is needed;
    without [joined_at], or with a membership younger than [min_days]
    days, it refuses; at exactly [min_days] days or more it goes on to the
    claim. *)
Theorem X12_try_button_guild_age (s : state) (u : uid) :
  mode (cfg s) = "guild" -> (Z.abs (min_days (cfg s)) <= 999999999)%Z ->
  (forall now j t, try_button s u now false j t = (s, NeedGuildContext)) /\
  (forall now t, try_button s u now true None t = (s, GuildAgeNotMet (min_days (cfg s)))) /\
  (forall now jt t, (now - jt < min_days (cfg s) * US_PER_DAY)%Z ->
     try_button s u now true (Some jt) t = (s, GuildAgeNotMet (min_days (cfg s)))) /\
  (forall now jt t, (min_days (cfg s) * US_PER_DAY <= now - jt)%Z ->
     try_button s u now true (Some jt) t = try_claim s u).
Proof.
  intros Hm Hd. unfold try_button, try_gate. rewrite (timedelta_ok _ Hd), Hm. simpl.
  split; [reflexivity|]. split; [reflexivity|]. split.
  - intros now jt t H. apply Z.ltb_lt in H. rewrite H. reflexivity.
  - intros now jt t H. apply Z.ltb_ge in H. rewrite H. reflexivity.
Qed.

Lemma X12_witness :
  let s := mk_state ["A"] [] (mk_config 3 "guild") in
  try_button s "1" (3 * US_PER_DAY)%Z true (Some 0%Z) None = try_claim s "1" /\
  try_button s "1" 0%Z false None (Some 0%Z) = (s, NeedGuildContext).
Proof.
  intros s. split.
  - apply (X12_try_button_guild_age s "1"); [reflexivity | vm_compute; discriminate | vm_compute; discriminate].
  - apply (X12_try_button_guild_age s "1"); [reflexivity | vm_compute; discriminate].
Defined.

(** A stored [min_days] beyond 999999999 days in absolute value makes
    [timedelta] overflow: every press of the Try button fails before any
    check, and the ledger is unchanged. *)
Theorem X13_try_button_overflow (s : state) (u : uid) (now : Z) (g : bool) (j t : option Z) :
  (999999999 < Z.abs (min_days (cfg s)))%Z ->
  try_button s u now g j t = (s, TryError).
Proof.
  intros H. unfold try_button, try_gate, timedelta_days.
  replace (Z.abs (min_days (cfg s)) <=? 999999999)%Z with false; [reflexivity|].
  symmetry. apply Z.leb_gt. exact H.
Qed.

Lemma X13_witness :
  try_button (mk_state ["A"] [] (mk_config 1000000000 "account")) "1" 0%Z true None (Some 0%Z) =
  (mk_state ["A"] [] (mk_config 1000000000 "account"), TryError).
Proof. apply X13_try_button_overflow. simpl. lia. Defined.

(** The default configuration is valid, and [cmd_setdays] and
    [cmd_setmode] keep the configuration valid: [min_days] within 0..3650
    and mode "account" or "guild". *)
Theorem X14_config_valid (s : state) (d : Z) (m : string) :
  valid_config (cfg empty_state) /\
  (valid_config (cfg s) ->
   valid_config (cfg (fst (cmd_setdays s d))) /\ valid_config (cfg (fst (cmd_setmode s m)))).
Proof.
  split; [unfold valid_config, empty_state, DEFAULT_MIN_DAYS, DEFAULT_MODE; simpl; split; [lia | left; reflexivity]|].
  intros [Hd Hm]. split.
  - unfold cmd_setdays. destruct ((d <? 0)%Z || (3650 <? d)%Z)%bool eqn:E; simpl;
      [split; assumption|].
    apply orb_false_iff in E as [E1 E2]. apply Z.ltb_ge in E1, E2.
    split; simpl; [lia | exact Hm].
  - unfold cmd_setmode, set_config. destruct (String.eqb_spec (lower m) "account"); simpl.
    + split; [exact Hd|]. left. assumption.
    + destruct (String.eqb_spec (lower m) "guild"); simpl; [|split; assumption].
      split; [exact Hd|]. right. assumption.
Qed.

Lemma X14_witness :
  valid_config (cfg (fst (cmd_setdays empty_state 30))) /\
  valid_config (cfg (fst (cmd_setmode empty_state "GUILD"))).
Proof.
  apply (X14_config_valid empty_state 30 "GUILD"). unfold valid_config, empty_state, DEFAULT_MIN_DAYS; simpl.
  split; [lia | left; reflexivity].
Defined.

(** [cmd_setmode] lower-cases its argument and accepts it exactly when the
    result is "account" or "guild"; it then stores that lower-cased mode
    (the [set_config] call cannot raise) and changes nothing else, and a
    refused mode changes nothing. *)
Theorem X15_cmd_setmode (s : state) (m : string) :
  (snd (cmd_setmode s m) = true <-> lower m = "account" \/ lower m = "guild") /\
  (snd (cmd_setmode s m) = true ->
   snd (set_config s None (Some (lower m))) = ConfigOk /\
   fst (cmd_setmode s m) = mk_state (pool s) (claims s) (mk_config (min_days (cfg s)) (lower m))) /\
  (snd (cmd_setmode s m) = false -> fst (cmd_setmode s m) = s).
Proof.
  unfold cmd_setmode, set_config.
  destruct (String.eqb_spec (lower m) "account") as [Ea|Ea];
    destruct (String.eqb_spec (lower m) "guild") as [Eg|Eg]; simpl;
    try rewrite Ea; try rewrite Eg; simpl.
  - rewrite Ea in Eg. discriminate.
  - split; [tauto|]. split; [intros _; split; reflexivity | discriminate].
  - split; [tauto|]. split; [intros _; split; reflexivity | discriminate].
  - split; [split; [discriminate | tauto]|]. split; [discriminate | reflexivity].
Qed.

Lemma X15_witness :
  snd (cmd_setmode empty_state "Guild") = true /\
  mode (cfg (fst (cmd_setmode empty_state "Guild"))) = "guild".
Proof.
  destruct (X15_cmd_setmode empty_state "Guild") as [H1 [H2 _]].
  assert (E : snd (cmd_setmode empty_state "Guild") = true) by (apply H1; right; reflexivity).
  split; [exact E|]. rewrite (proj2 (H2 E)). reflexivity.
Defined.

(** [cmd_revoke] on an identity without a claim answers "no claim" and
    changes nothing; on a claim with a non-empty key it reports that key.
    On a claim whose key is the empty string it removes the claim but
    still answers "That user has no claim." (the reply tests [not key]). *)
Theorem X16_cmd_revoke_reply (s : state) (u : uid) (b : bool) :
  NoDup (keys (claims s)) ->
  (get_claim s u = None -> cmd_revoke s u b = (s, RevokeNoClaim)) /\
  (forall k, get_claim s u = Some k -> k <> "" -> snd (cmd_revoke s u b) = Revoked k) /\
  (get_claim s u = Some "" ->
   snd (cmd_revoke s u b) = RevokeNoClaim /\ has_claimed (fst (cmd_revoke s u b)) u = false).
Proof.
  intros Hk. destruct (revoke_claim_spec s u b Hk) as (H1 & H2 & H3).
  unfold cmd_revoke. destruct (revoke_claim s u b) as [s' key]. simpl in H1, H2.
  split; [|split].
  - intros Hn. specialize (H3 Hn). inversion H3; subst. reflexivity.
  - intros k Hg Hne. rewrite H1, Hg. simpl. apply String.eqb_neq in Hne. rewrite Hne. reflexivity.
  - intros Hg. rewrite H1, Hg. simpl. split; [reflexivity | exact H2].
Qed.

Lemma X16_witness :
  let s := mk_state ["A"] [("1", ""); ("2", "B")] (cfg empty_state) in
  snd (cmd_revoke s "1" true) = RevokeNoClaim /\
  has_claimed (fst (cmd_revoke s "1" true)) "1" = false.
Proof.
  intros s. apply (X16_cmd_revoke_reply s "1" true); [nodup_concrete | reflexivity].
Defined.

(** [cmd_removekey] answers "not found" exactly when the key is neither in
    the pool nor bound in the claim map, and then changes nothing. *)
Theorem X17_cmd_removekey_not_found (s : state) (k : string) :
  (snd (cmd_removekey s k) = KeyNotFound <-> ~ In k (pool s) /\ ~ In k (values (claims s))) /\
  (snd (cmd_removekey s k) = KeyNotFound -> fst (cmd_removekey s k) = s).
Proof.
  unfold cmd_removekey, remove_key_from_pool.
  destruct (mem k (pool s)) eqn:Hp; simpl.
  - apply mem_In in Hp. split; [split; [discriminate | tauto] | discriminate].
  - apply mem_false in Hp.
    destruct (existsb (fun p => snd p =? k) (claims s)) eqn:Hc; simpl.
    + apply existsb_values in Hc. split; [split; [discriminate | tauto] | discriminate].
    + assert (Hn : ~ In k (values (claims s)))
        by (intros H; apply existsb_values in H; congruence).
      split; [tauto|]. intros _. rewrite (filter_none k _ Hn). destruct s. reflexivity.
Qed.

(** Every admin command except [/addkeys], and the Try button, keep the
    ledger invariant: no duplicate in the pool, distinct identities, no key
    bound twice, and no key both pooled and claimed. *)
Theorem X18_commands_keep_inv (s : state) (u : uid) (k : string) (b : bool) (d : Z)
  (m : string) (now : Z) (g : bool) (j t : option Z) :
  inv s ->
  inv (fst (cmd_assign s u k)) /\ inv (fst (cmd_revoke s u b)) /\
  inv (fst (cmd_removekey s k)) /\ inv (fst (cmd_setdays s d)) /\
  inv (fst (cmd_setmode s m)) /\ inv (fst (try_button s u now g j t)).
Proof.
  intros H. split; [|split; [|split; [|split; [|split]]]].
  - unfold cmd_assign. destruct (mem k (values (claims s))) eqn:Hm; [exact H|].
    apply mem_false in Hm. pose proof (assign_inv s u k H Hm) as Ha.
    destruct (assign_key_to_user s u k true). exact Ha.
  - unfold cmd_revoke. pose proof (revoke_claim_inv s u b H) as Hr.
    destruct (revoke_claim s u b) as [s' [key|]]; [destruct (truthy (Some key))|]; exact Hr.
  - unfold cmd_removekey. pose proof (remove_key_inv s k H) as Hr.
    destruct (remove_key_from_pool s k). exact Hr.
  - unfold cmd_setdays. destruct (_ || _)%bool; [exact H | apply set_config_inv, H].
  - unfold cmd_setmode. destruct (_ || _)%bool; [apply set_config_inv, H | exact H].
  - unfold try_button. destruct (try_gate (cfg s) now g j t); [exact H|].
    unfold try_claim. destruct (has_claimed s u); [exact H|].
    pose proof (claim_inv s u H) as Hc.
    destruct (claim s u) as [s' [key|]]; [destruct (truthy (Some key))|]; exact Hc.
Qed.

Lemma X18_witness :
  inv (fst (cmd_assign (mk_state ["A"; "B"] [("1", "C")] (cfg empty_state)) "2" "A")).
Proof.
  apply (X18_commands_keep_inv _ "2" "A" true 0 "" 0 true None None).
  unfold inv; simpl. split; [nodup_concrete|]. split; [nodup_concrete|].
  split; [nodup_concrete|]. intros x Hx Hv. unfold values in Hv. simpl in Hx, Hv. intuition congruence.
Defined.

Lemma list_ascii_of_string_app a b :
  list_ascii_of_string (a ++ b) = (list_ascii_of_string a ++ list_ascii_of_string b)%list.
Proof. induction a as [|c a IH]; simpl; [reflexivity | f_equal; exact IH]. Qed.

Lemma splitlines_aux_plain w cur rest :
  Forall (fun c => is_line_boundary c = false) w ->
  splitlines_aux cur (w ++ rest) = splitlines_aux (rev w ++ cur) rest.
Proof.
  intros H. revert cur. induction H as [|c w Hc Hw IH]; intros cur; simpl; [reflexivity|].
  rewrite Hc, IH, <- app_assoc. reflexivity.
Qed.

Lemma split_comma_aux_plain w cur rest :
  Forall (fun c => Ascii.eqb c "," = false) w ->
  split_comma_aux cur (w ++ rest) = split_comma_aux (rev w ++ cur) rest.
Proof.
  intros H. revert cur. induction H as [|c w Hc Hw IH]; intros cur; simpl; [reflexivity|].
  rewrite Hc, IH, <- app_assoc. reflexivity.
Qed.

Lemma single_part_chars k :
  single_part k = true <->
  Forall (fun c => negb (is_line_boundary c || Ascii.eqb c ",") = true) (list_ascii_of_string k).
Proof. unfold single_part. rewrite forallb_forall, Forall_forall. reflexivity. Qed.

Lemma single_part_no_boundary k :
  single_part k = true -> Forall (fun c => is_line_boundary c = false) (list_ascii_of_string k).
Proof.
  rewrite single_part_chars. apply Forall_impl. intros c H.
  destruct (is_line_boundary c); [discriminate | reflexivity].
Qed.

Lemma single_part_no_comma k :
  single_part k = true -> Forall (fun c => Ascii.eqb c "," = false) (list_ascii_of_string k).
Proof.
  rewrite single_part_chars. apply Forall_impl. intros c H.
  destruct (Ascii.eqb c ","), (is_line_boundary c); simpl in H; congruence.
Qed.

Lemma nonempty_chars k : k <> "" -> list_ascii_of_string k <> [].
Proof. destruct k; simpl; congruence. Qed.

Lemma split_comma_single k : single_part k = true -> split_comma k = [k].
Proof.
  intros H. unfold split_comma.
  rewrite <- (app_nil_r (list_ascii_of_string k)), split_comma_aux_plain
    by exact (single_part_no_comma k H).
  simpl. rewrite !app_nil_r, rev_involutive, string_of_list_ascii_of_string. reflexivity.
Qed.

Lemma split_comma_join ks :
  ks <> [] -> Forall (fun k => single_part k = true) ks ->
  split_comma_aux [] (list_ascii_of_string (String.concat "," ks)) = map list_ascii_of_string ks.
Proof.
  intros Hne H. induction H as [|k t Hk Ht IH]; [congruence|].
  destruct t as [|k2 t'].
  - simpl. rewrite <- (app_nil_r (list_ascii_of_string k)), split_comma_aux_plain
      by exact (single_part_no_comma k Hk).
    simpl. rewrite !app_nil_r, rev_involutive. reflexivity.
  - change (String.concat "," (k :: k2 :: t')) with (k ++ "," ++ String.concat "," (k2 :: t')).
    rewrite !list_ascii_of_string_app, split_comma_aux_plain by exact (single_part_no_comma k Hk).
    cbn [list_ascii_of_string app split_comma_aux]. rewrite Ascii.eqb_refl.
    rewrite app_nil_r, rev_involutive, IH by congruence. reflexivity.
Qed.

Lemma concat_no_boundary sep ks :
  Forall (fun c => is_line_boundary c = false) (list_ascii_of_string sep) ->
  Forall (fun k => single_part k = true) ks ->
  Forall (fun c => is_line_boundary c = false) (list_ascii_of_string (String.concat sep ks)).
Proof.
  intros Hs H. induction H as [|k t Hk Ht IH]; [constructor|].
  destruct t as [|k2 t'].
  - exact (single_part_no_boundary k Hk).
  - change (String.concat sep (k :: k2 :: t')) with (k ++ sep ++ String.concat sep (k2 :: t')).
    rewrite !list_ascii_of_string_app. apply Forall_app. split; [exact (single_part_no_boundary k Hk)|].
    apply Forall_app. split; [exact Hs | exact IH].
Qed.

Lemma splitlines_join sep ks :
  (forall cur rest, splitlines_aux cur (list_ascii_of_string sep ++ rest) =
                    rev cur :: splitlines_aux [] rest) ->
  ks <> [] -> Forall (fun k => single_part k = true /\ k <> "") ks ->
  splitlines_aux [] (list_ascii_of_string (String.concat sep ks)) = map list_ascii_of_string ks.
Proof.
  intros Hsep Hne H. induction H as [|k t [Hk Hk0] Ht IH]; [congruence|].
  destruct t as [|k2 t'].
  - simpl. rewrite <- (app_nil_r (list_ascii_of_string k)), splitlines_aux_plain
      by exact (single_part_no_boundary k Hk).
    rewrite !app_nil_r. simpl.
    destruct (rev (list_ascii_of_string k)) as [|c r] eqn:E.
    + apply (f_equal (@rev ascii)) in E. rewrite rev_involutive in E.
      exfalso. exact (nonempty_chars k Hk0 E).
    + rewrite <- E, rev_involutive. reflexivity.
  - change (String.concat sep (k :: k2 :: t')) with (k ++ sep ++ String.concat sep (k2 :: t')).
    rewrite !list_ascii_of_string_app, splitlines_aux_plain by exact (single_part_no_boundary k Hk).
    rewrite app_nil_r, Hsep, rev_involutive, IH by congruence. reflexivity.
Qed.

Lemma splitlines_LF cur rest :
  splitlines_aux cur (list_ascii_of_string LF ++ rest) = rev cur :: splitlines_aux [] rest.
Proof. simpl. destruct rest; reflexivity. Qed.

Lemma splitlines_CRLF cur rest :
  splitlines_aux cur (list_ascii_of_string CRLF ++ rest) = rev cur :: splitlines_aux [] rest.
Proof. reflexivity. Qed.

Lemma splitlines_one l :
  l <> [] -> Forall (fun c => is_line_boundary c = false) l -> splitlines_aux [] l = [l].
Proof.
  intros Hne H. rewrite <- (app_nil_r l), splitlines_aux_plain by exact H.
  rewrite !app_nil_r. simpl. destruct (rev l) as [|c r] eqn:E.
  - apply (f_equal (@rev ascii)) in E. rewrite rev_involutive in E. simpl in E. congruence.
  - rewrite <- E, rev_involutive. reflexivity.
Qed.

Lemma map_string_of_list_ascii ks :
  map string_of_list_ascii (map list_ascii_of_string ks) = ks.
Proof.
  induction ks as [|k t IH]; simpl; [reflexivity|].
  rewrite string_of_list_ascii_of_string, IH. reflexivity.
Qed.

Lemma map_strip_stripped ks : stripped_keys ks -> map strip ks = ks.
Proof.
  intros H. induction H as [|k t [Hk _] _ IH]; simpl; [reflexivity|]. rewrite Hk, IH. reflexivity.
Qed.

Lemma parse_lines ks :
  stripped_keys ks -> Forall (fun k => single_part k = true) ks ->
  flat_map (fun chunk => map strip (split_comma chunk)) ks = ks.
Proof.
  intros Hs Hp. induction Hs as [|k t [Hsk _] _ IH]; [reflexivity|].
  inversion Hp as [|? ? Hk Ht]; subst. simpl. rewrite split_comma_single by exact Hk.
  simpl. rewrite Hsk, IH by exact Ht. reflexivity.
Qed.

Lemma parse_keys_join sep ks :
  stripped_keys ks -> Forall (fun k => single_part k = true) ks ->
  In sep [","; LF; CRLF] -> parse_keys (String.concat sep ks) = ks.
Proof.
  intros Hs Hp Hsep.
  destruct ks as [|k0 ks0]; [destruct Hsep as [<-|[<-|[<-|[]]]]; reflexivity|].
  remember (k0 :: ks0) as ks eqn:Eks.
  assert (Hne : ks <> []) by (rewrite Eks; discriminate).
  assert (Hboth : Forall (fun k => single_part k = true /\ k <> "") ks).
  { clear Eks Hne. induction Hs as [|k t [_ Hk0] _ IH]; [constructor|].
    inversion Hp as [|? ? Hk Ht]; subst. constructor; [split; assumption | apply IH; exact Ht]. }
  unfold parse_keys, splitlines. destruct Hsep as [<-|[<-|[<-|[]]]].
  - rewrite splitlines_one.
    + simpl. rewrite app_nil_r. unfold split_comma.
      rewrite list_ascii_of_string_of_list_ascii, split_comma_join by assumption.
      rewrite map_string_of_list_ascii. apply map_strip_stripped, Hs.
    + subst ks. inversion Hboth as [|? ? [_ H0] _]; subst. simpl.
      destruct ks0; [exact (nonempty_chars _ H0)|].
      rewrite list_ascii_of_string_app. intros E. apply app_eq_nil in E. exact (nonempty_chars _ H0 (proj1 E)).
    + apply concat_no_boundary; [repeat constructor | exact Hp].
  - rewrite (splitlines_join LF ks splitlines_LF Hne Hboth), map_string_of_list_ascii.
    apply parse_lines; assumption.
  - rewrite (splitlines_join CRLF ks splitlines_CRLF Hne Hboth), map_string_of_list_ascii.
    apply parse_lines; assumption.
Qed.

(** Keys joined by commas, by "\n" or by "\r\n", each already trimmed, not
    empty and free of commas and line breaks, are read back by
    [cmd_addkeys] as exactly that list, so the command does what
    [add_keys] does on it. *)
Theorem X19_cmd_addkeys_join (s : state) (ks : list string) (sep : string) :
  stripped_keys ks -> Forall (fun k => single_part k = true) ks ->
  In sep [","; LF; CRLF] ->
  parse_keys (String.concat sep ks) = ks /\
  cmd_addkeys s (String.concat sep ks) =
    (fst (add_keys s ks), (snd (add_keys s ks), available_count (fst (add_keys s ks)))).
Proof.
  intros Hs Hp Hsep. pose proof (parse_keys_join sep ks Hs Hp Hsep) as E.
  split; [exact E|]. unfold cmd_addkeys. rewrite E. destruct (add_keys s ks). reflexivity.
Qed.

Lemma X19_witness :
  cmd_addkeys empty_state (String.concat CRLF ["AAA-1"; "BBB-2"]) =
    (mk_state ["AAA-1"; "BBB-2"] [] (cfg empty_state), (2%nat, 2%nat)).
Proof.
  apply (X19_cmd_addkeys_join empty_state ["AAA-1"; "BBB-2"] CRLF).
  - repeat constructor; discriminate.
  - repeat constructor.
  - simpl. tauto.
Defined.

Lemma splitlines_aux_clean n l cur :
  (length l <= n)%nat -> Forall (fun c => is_line_boundary c = false) cur ->
  Forall (Forall (fun c => is_line_boundary c = false)) (splitlines_aux cur l).
Proof.
  revert l cur. induction n as [|n IH]; intros l cur Hn Hc.
  - destruct l; [|simpl in Hn; lia]. simpl. destruct cur; constructor; [apply Forall_rev, Hc | constructor].
  - destruct l as [|c t]; simpl.
    + destruct cur; constructor; [apply Forall_rev, Hc | constructor].
    + simpl in Hn. destruct (is_line_boundary c) eqn:Eb.
      * constructor; [apply Forall_rev, Hc|].
        destruct t as [|x t']; [constructor|].
        destruct (Ascii.eqb c "013" && Ascii.eqb x "010")%bool; apply IH; simpl in *;
          first [lia | constructor].
      * apply IH; [lia | constructor; assumption].
Qed.

Lemma split_comma_aux_clean l cur :
  Forall (fun c => negb (is_line_boundary c || Ascii.eqb c ",") = true) cur ->
  Forall (fun c => is_line_boundary c = false) l ->
  Forall (Forall (fun c => negb (is_line_boundary c || Ascii.eqb c ",") = true))
    (split_comma_aux cur l).
Proof.
  intros Hc Hl. revert cur Hc. induction Hl as [|c t Hb _ IH]; intros cur Hcur; simpl.
  - constructor; [apply Forall_rev, Hcur | constructor].
  - destruct (Ascii.eqb c ",") eqn:Ec.
    + constructor; [apply Forall_rev, Hcur | apply IH; constructor].
    + apply IH. constructor; [rewrite Hb, Ec; reflexivity | exact Hcur].
Qed.

Lemma drop_spaces_in c l : In c (drop_spaces l) -> In c l.
Proof.
  destruct (drop_spaces_suffix l) as [p Hp]. intros H. rewrite Hp. apply in_or_app. right. exact H.
Qed.

Lemma strip_chars c x : In c (list_ascii_of_string (strip x)) -> In c (list_ascii_of_string x).
Proof.
  unfold strip. rewrite list_ascii_of_string_of_list_ascii. intros H.
  apply in_rev, drop_spaces_in, in_rev, drop_spaces_in in H. exact H.
Qed.

Lemma single_part_strip x : single_part x = true -> single_part (strip x) = true.
Proof.
  rewrite !single_part_chars, !Forall_forall. intros H c Hc. apply H, strip_chars, Hc.
Qed.

Lemma parse_keys_single text :
  Forall (fun p => single_part p = true) (parse_keys text).
Proof.
  apply Forall_forall. intros p Hp. unfold parse_keys in Hp.
  apply in_flat_map in Hp. destruct Hp as [chunk [Hch Hp]].
  apply in_map_iff in Hp. destruct Hp as [q [<- Hq]]. apply single_part_strip.
  unfold splitlines in Hch. apply in_map_iff in Hch. destruct Hch as [line [<- Hline]].
  unfold split_comma in Hq. rewrite list_ascii_of_string_of_list_ascii in Hq.
  apply in_map_iff in Hq. destruct Hq as [part [<- Hpart]].
  pose proof (splitlines_aux_clean _ (list_ascii_of_string text) [] (le_n _) (Forall_nil _)) as H1.
  rewrite Forall_forall in H1. specialize (H1 line Hline).
  pose proof (split_comma_aux_clean line [] (Forall_nil _) H1) as H2.
  rewrite Forall_forall in H2. specialize (H2 part Hpart).
  apply single_part_chars. rewrite list_ascii_of_string_of_list_ascii. exact H2.
Qed.

Lemma clean_keys_in k l : In k (clean_keys l) -> exists x, In x l /\ k = strip x /\ k <> "".
Proof.
  rewrite clean_keys_alt. intros H. apply in_map_iff in H. destruct H as [x [<- Hx]].
  apply filter_In in Hx. destruct Hx as [Hx He]. exists x. split; [exact Hx|]. split; [reflexivity|].
  apply String.eqb_neq. destruct (strip x =? ""); [discriminate | reflexivity].
Qed.

Lemma add_keys_pool_in s l k :
  In k (pool (fst (add_keys s l))) -> In k (pool s) \/ In k (clean_keys l).
Proof.
  unfold add_keys. destruct (clean_keys l) as [|c r] eqn:E; [intros H; left; exact H|].
  rewrite <- E. destruct (filter _ (clean_keys l)) as [|f fs] eqn:F; [intros H; left; exact H|].
  simpl. intros H. apply in_app_or in H. destruct H as [H|H]; [left; exact H|].
  right. rewrite <- F in H. apply filter_In in H. exact (proj1 H).
Qed.

(** [cmd_addkeys] only ever adds keys that are trimmed, not empty and
    free of commas and line breaks, whatever the admin pastes. *)
Theorem X20_cmd_addkeys_added_keys (s : state) (text k : string) :
  In k (pool (fst (cmd_addkeys s text))) ->
  In k (pool s) \/ (single_part k = true /\ strip k = k /\ k <> "").
Proof.
  unfold cmd_addkeys. destruct (add_keys s (parse_keys text)) as [s' n] eqn:E. simpl.
  intros H. replace s' with (fst (add_keys s (parse_keys text))) in H by (rewrite E; reflexivity).
  apply add_keys_pool_in in H. destruct H as [H|H]; [left; exact H|]. right.
  apply clean_keys_in in H. destruct H as [x [Hx [-> Hne]]].
  split; [|split; [apply strip_idem | exact Hne]].
  apply single_part_strip. pose proof (parse_keys_single text) as Hp.
  rewrite Forall_forall in Hp. exact (Hp x Hx).
Qed.

Lemma X20_witness :
  In "A" (pool (fst (cmd_addkeys empty_state (" A ," ++ LF ++ ",,A")))) /\
  (single_part "A" = true /\ strip "A" = "A" /\ "A" <> "").
Proof.
  split; [vm_compute; tauto|].
  destruct (X20_cmd_addkeys_added_keys empty_state (" A ," ++ LF ++ ",,A") "A") as [H|H].
  - vm_compute; tauto.
  - destruct H.
  - exact H.
Defined.
